(** * Contract Finder Agent (src/app.py): a shallow embedding and its properties

    The agent is a two-node LangGraph flow (input_gathering, contract_search)
    with one conditional edge (route_to_search), driven by a console loop
    (run_contract_finder) that fills four optional fields of a dictionary by
    keyword search in the raw input.

    Python values are embedded as follows.
    - [str] is [string]; a character is a code point below 256.
    - [Optional[str]] is [pyopt]; a dictionary key that may be missing is an
      [option] around the value, so [Some PyNone] is a key bound to [None].
    - the [TypedDict] ContractState is a record of such optional keys;
    - a raw search hit, a dictionary with arbitrary string keys, is a
      [gmap string string];
    - exceptions and [print] are threaded through the small monad [Py]. *)

From stdpp Require Import base strings list gmap.
From Stdlib Require Import Ascii DecimalString.


(** ** Python strings *)

Module PyStr.

Definition code (c : ascii) : nat := nat_of_ascii c.

(** [str.lower] on one code point below 256: A-Z and the Latin-1 capitals
    (U+00C0..U+00DE without the multiplication sign U+00D7) move up by 32. *)
Definition lower_char (c : ascii) : ascii :=
  let n := code c in
  if ((65 <=? n) && (n <=? 90))
     || ((192 <=? n) && (n <=? 222) && negb (n =? 215))
  then ascii_of_nat (n + 32) else c.

Fixpoint lower (s : string) : string :=
  match s with
  | EmptyString => EmptyString
  | String c s' => String (lower_char c) (lower s')
  end.

(** The characters [str.strip] removes, among the code points below 256:
    TAB..CR, FS..US, space, NEL and NBSP. *)
Definition is_space (c : ascii) : bool :=
  let n := code c in
  ((9 <=? n) && (n <=? 13)) || ((28 <=? n) && (n <=? 32))
  || (n =? 133) || (n =? 160).

Fixpoint lstrip (s : string) : string :=
  match s with
  | EmptyString => EmptyString
  | String c s' => if is_space c then lstrip s' else s
  end.

Fixpoint rstrip (s : string) : string :=
  match s with
  | EmptyString => EmptyString
  | String c s' =>
      match rstrip s' with
      | EmptyString => if is_space c then EmptyString else String c EmptyString
      | r => String c r
      end
  end.

Definition strip (s : string) : string := rstrip (lstrip s).

(** [s.startswith(p)] *)
Fixpoint startswith (p s : string) : bool :=
  match p, s with
  | EmptyString, _ => true
  | String _ _, EmptyString => false
  | String a p', String b s' => if Ascii.eqb a b then startswith p' s' else false
  end.

(** [sub in s] *)
Fixpoint contains (sub s : string) : bool :=
  startswith sub s
  || match s with
     | EmptyString => false
     | String _ s' => contains sub s'
     end.

(** [s.split(sep)] for a non-empty [sep]: the occurrences of [sep] are found
    from left to right and do not overlap; [skip] counts the characters of an
    occurrence still to be passed over. *)
Fixpoint split_go (sep : string) (skip : nat) (s : string) : list string :=
  match s with
  | EmptyString => [EmptyString]
  | String a s' =>
      match skip with
      | S k => split_go sep k s'
      | O =>
          if startswith sep s
          then EmptyString :: split_go sep (String.length sep - 1) s'
          else match split_go sep 0 s' with
               | h :: t => String a h :: t
               | [] => [String a EmptyString]
               end
      end
  end.

(** [s[:n]] *)
Fixpoint slice_to (n : nat) (s : string) : string :=
  match n, s with
  | S n', String c s' => String c (slice_to n' s')
  | _, _ => EmptyString
  end.

(** [sep.join(l)] *)
Fixpoint join (sep : string) (l : list string) : string :=
  match l with
  | [] => EmptyString
  | [x] => x
  | x :: l' => x +:+ sep +:+ join sep l'
  end.

(** [str(n)] for a non-negative integer. *)
Definition str_int (n : nat) : string :=
  NilEmpty.string_of_uint (Nat.to_uint n).

(** [s1] is an initial segment of [s2]. *)
Definition is_prefix (s1 s2 : string) : Prop := ∃ rest, s2 = s1 +:+ rest.

End PyStr.

(** ** Exceptions and console output *)

(** An exception: its class and [str(e)]. [Exn] is an instance of a class
    derived from Exception; [BaseExn] is an instance of a class outside
    Exception (KeyboardInterrupt, SystemExit, GeneratorExit), which
    [except Exception] does not catch. *)
Inductive exn :=
| Exn (cls msg : string)
| BaseExn (cls msg : string).

Definition str_exn (e : exn) : string :=
  match e with Exn _ m | BaseExn _ m => m end.

(** [isinstance(e, Exception)] *)
Definition is_Exception (e : exn) : bool :=
  match e with Exn _ _ => true | BaseExn _ _ => false end.

Definition KeyError (k : string) : exn := Exn "KeyError" ("'" +:+ k +:+ "'").
Definition IndexError : exn := Exn "IndexError" "list index out of range".
Definition ValueError_empty_separator : exn := Exn "ValueError" "empty separator".
Definition EOFError : exn := Exn "EOFError" "EOF when reading a line".
Definition GraphRecursionError : exn :=
  Exn "GraphRecursionError" "Recursion limit of 25 reached without hitting a stop condition.".

Inductive result (A : Type) : Type :=
| Ok (a : A)
| Raise (e : exn).
Arguments Ok {A} a.
Arguments Raise {A} e.

#[global] Instance result_ret : MRet result := λ A a, Ok a.

#[global] Instance result_bind : MBind result := λ A B f m,
  match m with
  | Ok a => f a
  | Raise e => Raise e
  end.

(** A computation: what it wrote to the console, and how it ended. *)
Definition Py (A : Type) : Type := list string * result A.

Definition raise {A} (e : exn) : Py A := ([], Raise e).
Definition print (line : string) : Py unit := ([line], Ok tt).
Definition lift {A} (r : result A) : Py A := ([], r).

#[global] Instance Py_ret : MRet Py := λ A a, ([], Ok a).

#[global] Instance Py_bind : MBind Py := λ A B f m,
  match m with
  | (out, Ok a) => let '(out', r) := f a in (out ++ out', r)
  | (out, Raise e) => (out, Raise e)
  end.

(** [try: m  except Exception as e: h e]; an exception outside Exception is
    not caught and goes on to the caller. *)
Definition try_except {A} (m : Py A) (h : exn → Py A) : Py A :=
  match m with
  | (out, Raise e) =>
      if is_Exception e
      then let '(out', r) := h e in (out ++ out', r)
      else (out, Raise e)
  | (out, Ok a) => (out, Ok a)
  end.

Definition console {A} (m : Py A) : list string := fst m.
Definition outcome {A} (m : Py A) : result A := snd m.

(** [s.split(sep)]; an empty separator is a ValueError. *)
Definition split (sep s : string) : result (list string) :=
  match sep with
  | EmptyString => Raise ValueError_empty_separator
  | _ => Ok (PyStr.split_go sep 0 s)
  end.

(** [l[-1]] *)
Definition last_item {A} (l : list A) : result A :=
  match last l with
  | Some x => Ok x
  | None => Raise IndexError
  end.

(** ** Data model *)

Inductive Message :=
| HumanMessage (content : string)
| AIMessage (content : string).

Definition is_HumanMessage (m : Message) : bool :=
  match m with HumanMessage _ => true | AIMessage _ => false end.
Definition is_AIMessage (m : Message) : bool :=
  match m with AIMessage _ => true | HumanMessage _ => false end.
Definition message_content (m : Message) : string :=
  match m with HumanMessage c | AIMessage c => c end.

(** A value of type [Optional[str]]. *)
Inductive pyopt :=
| PyNone
| PyStr (s : string).

(** Truth value of an [Optional[str]]: [None] and [''] are false. *)
Definition truthy (v : pyopt) : bool :=
  match v with
  | PyNone => false
  | PyStr EmptyString => false
  | PyStr (String _ _) => true
  end.

(** How an f-string renders the value. *)
Definition format (v : pyopt) : string :=
  match v with
  | PyNone => "None"
  | PyStr s => s
  end.

(** The dictionary ContractState (also the partial dictionaries the nodes
    return): a field is [None] when the key is missing. *)
Record ContractState := mkState {
  messages : option (list Message);
  industry : option pyopt;
  contract_type : option pyopt;
  location : option pyopt;
  budget_range : option pyopt
}.

(** [d.get(k)] and [d.get(k, dflt)] on a field, and [d[k]]. *)
Definition get (field : option pyopt) : pyopt := default PyNone field.
Definition get_or (field : option pyopt) (dflt : string) : pyopt :=
  default (PyStr dflt) field.
Definition subscript {A} (key : string) (field : option A) : result A :=
  match field with
  | Some v => Ok v
  | None => Raise (KeyError key)
  end.

Definition with_messages (ms : list Message) (st : ContractState) :=
  mkState (Some ms) (industry st) (contract_type st) (location st) (budget_range st).
Definition with_industry (v : pyopt) (st : ContractState) :=
  mkState (messages st) (Some v) (contract_type st) (location st) (budget_range st).
Definition with_contract_type (v : pyopt) (st : ContractState) :=
  mkState (messages st) (industry st) (Some v) (location st) (budget_range st).
Definition with_location (v : pyopt) (st : ContractState) :=
  mkState (messages st) (industry st) (contract_type st) (Some v) (budget_range st).
Definition with_budget_range (v : pyopt) (st : ContractState) :=
  mkState (messages st) (industry st) (contract_type st) (location st) (Some v).

(** The dictionary [{"messages": ms}]. *)
Definition messages_only (ms : list Message) : ContractState :=
  mkState (Some ms) None None None None.

(** Truth value of a list: false when empty. *)
Definition nonempty {A} (l : list A) : bool :=
  match l with [] => false | _ :: _ => true end.

(** [all([...])] over truth values. *)
Definition all (vs : list pyopt) : bool := forallb truthy vs.

(** ** Start-up: the API keys *)

(** [os.getenv(name)] on the process environment, once [load_dotenv] has
    filled it. *)
Definition getenv (environ : gmap string string) (name : string) : pyopt :=
  match environ !! name with
  | Some v => PyStr v
  | None => PyNone
  end.

(** The module-level checks: the two keys, or the ValueError that stops the
    import. *)
Definition check_api_keys (environ : gmap string string) : result (pyopt * pyopt) :=
  let TAVILY_API_KEY := getenv environ "TAVILY_API_KEY" in
  let GROQ_API_KEY := getenv environ "GROQ_API_KEY" in
  if negb (truthy TAVILY_API_KEY)
  then Raise (Exn "ValueError" "TAVILY_API_KEY is not set in the .env file")
  else if negb (truthy GROQ_API_KEY)
  then Raise (Exn "ValueError" "GROQ_API_KEY is not set in the .env file")
  else Ok (TAVILY_API_KEY, GROQ_API_KEY).

(** ** The search capability and its results *)

(** A raw hit of the search tool: a dictionary from strings to strings. *)
Abbreviation RawResult := (gmap string string).

(** [r.get(k, dflt)] on a raw hit. *)
Definition raw_get (r : RawResult) (k dflt : string) : string :=
  default dflt (r !! k).

(** The dictionary with the three keys 'title', 'url' and 'content'. *)
Record ProcessedResult := mkResult {
  title : string;
  url : string;
  content : string
}.

(** ** The nodes of the graph *)

Definition clarification_prompt : string :=
  "I'll help you find contract opportunities. "
  +:+ "Could you please provide more details:
"
  +:+ "1. What industry are you looking for contracts in? (e.g., IT, Construction, Marketing)
"
  +:+ "2. What type of contract are you seeking? (e.g., Full-time, Part-time, Project-based)
"
  +:+ "3. In which location are you looking for contracts?
"
  +:+ "4. Do you have a specific budget range in mind?".

Definition acknowledgment : string :=
  "Great! I'll search for contract opportunities based on your details.".

Definition no_results_message : string :=
  "I'm sorry, but I couldn't find any contract opportunities matching your criteria. "
  +:+ "Would you like to modify your search parameters?".

Definition results_header : string :=
  "I've found some contract opportunities matching your criteria:

".

(** Step 3: the input gathering node. *)
Definition gather_contract_details (state : ContractState) : ContractState :=
  if negb (all [get (industry state); get (contract_type state); get (location state)])
  then messages_only [AIMessage clarification_prompt]
  else messages_only [AIMessage acknowledgment].

(** The query of the contract search node. *)
Definition search_query (state : ContractState) : string :=
  "Latest " +:+ format (get_or (contract_type state) "") +:+ " contract opportunities "
  +:+ "in " +:+ format (get_or (industry state) "") +:+ " industry "
  +:+ "located in " +:+ format (get_or (location state) "") +:+ " "
  +:+ "with budget range " +:+ format (get_or (budget_range state) "any").

Definition processed_result (result : RawResult) : ProcessedResult :=
  {| title := raw_get result "title" "Untitled Contract Opportunity";
     url := raw_get result "url" "No URL available";
     content := raw_get result "content" "No description available" |}.

(** One entry of the numbered list; [i] is the index [enumerate] gives. *)
Definition format_result (i : nat) (result : ProcessedResult) : string :=
  PyStr.str_int (i + 1) +:+ ". " +:+ title result +:+ "
"
  +:+ "   URL: " +:+ url result +:+ "
"
  +:+ "   Description: " +:+ PyStr.slice_to 200 (content result) +:+ "...".

(** Step 6: routing. *)
Definition route_to_search (state : ContractState) : string :=
  let messages := default [] (messages state) in
  if nonempty messages && from_option is_HumanMessage false (last messages)
  then
    if negb (all [get (industry state); get (contract_type state); get (location state)])
    then "input_gathering"
    else "contract_search"
  else "contract_search".

Section Graph.

(** [search_tool.invoke({"query": q})]: the hits, or an exception. *)
Variable search_tool : string → result (list RawResult).

(** Step 4: the contract search node. *)
Definition safe_search_contracts (state : ContractState) : Py (list ProcessedResult) :=
  try_except
    (let search_query := search_query state in
     search_results ← lift (search_tool search_query);
     mret (map processed_result search_results))
    (λ e, print ("Error in contract search: " +:+ str_exn e);; mret []).

Definition search_contracts (state : ContractState) : Py ContractState :=
  search_results ← safe_search_contracts state;
  let result_message :=
    match search_results with
    | [] => AIMessage no_results_message
    | _ =>
        let results_text := PyStr.join "

" (imap format_result search_results) in
        AIMessage (results_header +:+ results_text)
    end in
  mret (messages_only [result_message]).

(** *** Running the graph

    The state of a run lives in channels: [messages] is folded with
    [add_messages], every other key keeps the last value written to it. A node
    returns a partial dictionary; only the keys it holds are written. *)

Definition add_messages (left right : list Message) : list Message :=
  left ++ right.

Definition last_value {A} (old new : option A) : option A :=
  match new with
  | Some v => Some v
  | None => old
  end.

Definition apply_update (state update : ContractState) : ContractState :=
  {| messages :=
       match messages update with
       | Some new => Some (add_messages (default [] (messages state)) new)
       | None => messages state
       end;
     industry := last_value (industry state) (industry update);
     contract_type := last_value (contract_type state) (contract_type update);
     location := last_value (location state) (location update);
     budget_range := last_value (budget_range state) (budget_range update) |}.

Definition empty_channels : ContractState := mkState None None None None None.

(** Step 5: the nodes. *)
Inductive Node := input_gathering | contract_search.

Definition node_name (n : Node) : string :=
  match n with
  | input_gathering => "input_gathering"
  | contract_search => "contract_search"
  end.

Definition run_node (n : Node) (state : ContractState) : Py ContractState :=
  match n with
  | input_gathering => mret (gather_contract_details state)
  | contract_search => search_contracts state
  end.

(** Step 7: the edges. [None] is END. *)
Definition path_map : gmap string Node :=
  {[ "input_gathering" := input_gathering; "contract_search" := contract_search ]}.

Definition next_node (n : Node) (state : ContractState) : result (option Node) :=
  match n with
  | input_gathering =>
      let branch := route_to_search state in
      match path_map !! branch with
      | Some target => Ok (Some target)
      | None => Raise (KeyError branch)
      end
  | contract_search => Ok None
  end.

Definition recursion_limit : nat := 25.

(** ** Step 9: the interactive loop *)

Definition initial_state : ContractState :=
  {| messages := Some [];
     industry := Some PyNone;
     contract_type := Some PyNone;
     location := Some PyNone;
     budget_range := Some PyNone |}.

(** [user_input.split(keyword)[-1].strip()] *)
Definition after_keyword (keyword user_input : string) : result string :=
  parts ← split keyword user_input;
  tail ← last_item parts;
  mret (PyStr.strip tail).

Definition extract_industry (user_input : string) (st : ContractState)
  : result ContractState :=
  current ← subscript "industry" (industry st);
  if negb (truthy current) && PyStr.contains "industry" (PyStr.lower user_input)
  then v ← after_keyword "industry" user_input; mret (with_industry (PyStr v) st)
  else mret st.

Definition extract_contract_type (user_input : string) (st : ContractState)
  : result ContractState :=
  current ← subscript "contract_type" (contract_type st);
  if negb (truthy current) && PyStr.contains "contract type" (PyStr.lower user_input)
  then v ← after_keyword "contract type" user_input; mret (with_contract_type (PyStr v) st)
  else mret st.

Definition extract_location (user_input : string) (st : ContractState)
  : result ContractState :=
  current ← subscript "location" (location st);
  if negb (truthy current)
     && existsb (λ loc, PyStr.contains loc (PyStr.lower user_input)) ["in"; "location"]
  then v ← after_keyword "location" user_input; mret (with_location (PyStr v) st)
  else mret st.

Definition extract_budget_range (user_input : string) (st : ContractState)
  : result ContractState :=
  current ← subscript "budget_range" (budget_range st);
  if negb (truthy current) && PyStr.contains "budget" (PyStr.lower user_input)
  then v ← after_keyword "budget" user_input; mret (with_budget_range (PyStr v) st)
  else mret st.

(** The four checks, in the order of the source. *)
Definition extract_details (user_input : string) (st : ContractState)
  : result ContractState :=
  st ← extract_industry user_input st;
  st ← extract_contract_type user_input st;
  st ← extract_location user_input st;
  extract_budget_range user_input st.

(** The body of the loop over the items of one streamed event: [value] is what
    the node returned, [st] is the dictionary [initial_state]. *)
Definition handle_event (user_input : string) (value st : ContractState)
  : Py ContractState :=
  match messages value with
  | Some ms =>
      last_message ← lift (last_item ms);
      (if is_AIMessage last_message
       then print ("
Assistant: " +:+ message_content last_message)
       else mret tt);;
      lift (extract_details user_input st)
  | None => mret st
  end.

(** [for event in contract_finder_graph.stream(initial_state)]: the graph runs
    one node, the loop body handles its event, and the graph goes on from its
    own state [channels]; [st], the dictionary the loop assigns to, is not read
    again by the graph. *)
Fixpoint stream_loop (fuel : nat) (n : Node) (channels : ContractState)
    (user_input : string) (st : ContractState) : Py ContractState :=
  match fuel with
  | O => raise GraphRecursionError
  | S fuel' =>
      update ← run_node n channels;
      st ← handle_event user_input update st;
      let channels := apply_update channels update in
      next ← lift (next_node n channels);
      match next with
      | Some n' => stream_loop fuel' n' channels user_input st
      | None => mret st
      end
  end.

(** One iteration of the loop for an input that is not an exit word. *)
Definition turn (user_input : string) (st : ContractState) : Py ContractState :=
  ms ← lift (subscript "messages" (messages st));
  let st := with_messages (ms ++ [HumanMessage user_input]) st in
  stream_loop recursion_limit input_gathering (apply_update empty_channels st)
    user_input st.

Definition is_exit (user_input : string) : bool :=
  bool_decide (PyStr.lower user_input ∈ ["quit"; "exit"; "q"]).

(** The body of [try] in one iteration, once [input] has returned: the new
    dictionary to go on with, or [None] after [break]. *)
Definition iteration (user_input : string) (st : ContractState)
  : Py (option ContractState) :=
  if is_exit user_input
  then print "Goodbye! Hope you found some great contract opportunities.";;
       mret None
  else st' ← turn user_input st; mret (Some st').

(** [except Exception as e] of the loop: report and [break]. *)
Definition report_and_break (e : exn) : Py (option ContractState) :=
  print ("An error occurred: " +:+ str_exn e);; mret None.

(** [while True], given the lines typed; [input] writes its prompt and, when
    the lines have run out, raises EOFError. An exception outside Exception
    leaves the loop and the function. *)
Fixpoint main_loop (inputs : list string) (st : ContractState) : Py unit :=
  print "
User: ";;
  match inputs with
  | [] =>
      next ← try_except (raise EOFError) report_and_break;
      mret tt
  | user_input :: inputs' =>
      next ← try_except (iteration user_input st) report_and_break;
      match next with
      | Some st' => main_loop inputs' st'
      | None => mret tt
      end
  end.

Definition run_contract_finder (inputs : list string) : Py unit :=
  print "Welcome to the Contract Finder Agent!";;
  print "I'll help you find the best contract opportunities.";;
  main_loop inputs initial_state.

(** One turn of the session as a step between dictionaries. *)
Definition turn_step (st st' : ContractState) : Prop :=
  ∃ user_input out, turn user_input st = (out, Ok st').

End Graph.


(** * Vocabulary of the specification and sample data *)

(** A field is unset: its key is missing, or bound to [None]. *)
Definition unset (field : option pyopt) : Prop :=
  field = None ∨ field = Some PyNone.

(** A field is blank: unset, or the empty string. *)
Definition blank (field : option pyopt) : Prop :=
  unset field ∨ field = Some (PyStr "").

(** A field holds a non-empty string. *)
Definition filled (field : option pyopt) : Prop :=
  ∃ c s, field = Some (PyStr (String c s)).

(** The message sequence is non-empty and its last message is the user's. *)
Definition last_is_user (st : ContractState) : Prop :=
  ∃ earlier text, messages st = Some (earlier ++ [HumanMessage text]).

(** A dictionary whose last message is the user's and whose three required
    keys are all bound to strings, one of them empty. *)
Definition state_empty_industry : ContractState :=
  {| messages := Some [HumanMessage "hi"];
     industry := Some (PyStr "");
     contract_type := Some (PyStr "Full-time");
     location := Some (PyStr "Austin");
     budget_range := Some PyNone |}.

(** The dictionary of the example: budget_range bound to [None]. *)
Definition state_austin : ContractState :=
  {| messages := Some [HumanMessage "find me contracts"];
     industry := Some (PyStr "IT");
     contract_type := Some (PyStr "Full-time");
     location := Some (PyStr "Austin");
     budget_range := Some PyNone |}.

(** The same dictionary without the key budget_range. *)
Definition state_austin_no_budget_key : ContractState :=
  {| messages := Some [HumanMessage "find me contracts"];
     industry := Some (PyStr "IT");
     contract_type := Some (PyStr "Full-time");
     location := Some (PyStr "Austin");
     budget_range := None |}.

(** What it means for a step's update to leave the scalar fields alone: the
    update binds none of the four keys, and writing it to the channels keeps
    their values. *)
Definition keeps_scalar_fields (st update : ContractState) : Prop :=
  industry update = None ∧ contract_type update = None
  ∧ location update = None ∧ budget_range update = None
  ∧ industry (apply_update st update) = industry st
  ∧ contract_type (apply_update st update) = contract_type st
  ∧ location (apply_update st update) = location st
  ∧ budget_range (apply_update st update) = budget_range st.

(** How one key [k] of a raw hit [r], from which the keys [missing] have been
    removed, shows up in the field [f] of the normalised record: the fallback
    [dflt] when the key is gone or never was there, the hit's own value
    otherwise. *)
Definition normalised_key (k dflt : string) (f : ProcessedResult → string)
    (r : RawResult) (missing : list string) : Prop :=
  let r' := foldr delete r missing in
  (k ∈ missing ∨ r !! k = None → f (processed_result r') = dflt)
  ∧ (∀ v, k ∉ missing → r !! k = Some v → f (processed_result r') = v).

Definition full_hit : RawResult :=
  {[ "title" := "Data platform contract";
     "url" := "https://example.org/1";
     "content" := "Six months, remote" ]}.

Definition failing_tool : string → result (list RawResult) :=
  λ _, Raise (Exn "TimeoutError" "timed out").

Definition two_hits : list RawResult := [full_hit; ∅].

(** A field either keeps its value or was blank before. *)
Definition kept_or_blank (field : ContractState → option pyopt)
    (st st' : ContractState) : Prop :=
  field st' = field st ∨ blank (field st).

Definition assigns_blank_only (st st' : ContractState) : Prop :=
  kept_or_blank industry st st' ∧ kept_or_blank contract_type st st'
  ∧ kept_or_blank location st st' ∧ kept_or_blank budget_range st st'.

(** The outcome is a value or an exception derived from Exception. *)
Definition no_base_exception {A} (r : result A) : Prop :=
  ∀ cls msg, r ≠ Raise (BaseExn cls msg).

(** A tool interrupted from the keyboard. *)
Definition interrupted_tool : string → result (list RawResult) :=
  λ _, Raise (BaseExn "KeyboardInterrupt" "").

(** Every key of the dictionary is bound, as in [initial_state]. *)
Definition keys_bound (st : ContractState) : Prop :=
  is_Some (messages st) ∧ is_Some (industry st) ∧ is_Some (contract_type st)
  ∧ is_Some (location st) ∧ is_Some (budget_range st).

(** A field is never reassigned between two dictionaries: a non-empty string
    stays, and a change means the field was blank. *)
Definition never_reassigned (field : ContractState → option pyopt)
    (st st' : ContractState) : Prop :=
  (filled (field st) → field st' = field st)
  ∧ (field st' ≠ field st → blank (field st)).

(** The dictionary after the first input "industry": the keyword is followed
    by nothing, so industry is bound to the empty string. *)
Definition state_after_industry : ContractState :=
  {| messages := Some [HumanMessage "industry"];
     industry := Some (PyStr "");
     contract_type := Some PyNone;
     location := Some (PyStr "industry");
     budget_range := Some PyNone |}.

(** The dictionary after the second input "industry IT". *)
Definition state_after_industry_IT : ContractState :=
  {| messages := Some [HumanMessage "industry"; HumanMessage "industry IT"];
     industry := Some (PyStr "IT");
     contract_type := Some PyNone;
     location := Some (PyStr "industry");
     budget_range := Some PyNone |}.

(** The common shape of the four extraction checks: [field] and [assign] read
    and write one key, [guard] is the keyword test on the lowered input. *)
Definition keyword_check (key : string) (field : ContractState → option pyopt)
    (assign : pyopt → ContractState → ContractState) (guard : bool)
    (keyword user_input : string) (st : ContractState) : result ContractState :=
  current ← subscript key (field st);
  if negb (truthy current) && guard
  then v ← after_keyword keyword user_input; mret (assign (PyStr v) st)
  else mret st.

(** The last line a session writes. *)
Definition goodbye : string :=
  "Goodbye! Hope you found some great contract opportunities.".
Definition end_of_input : string := "An error occurred: EOF when reading a line".

(** A text neither starts nor ends with whitespace. *)
Definition no_outer_space (v : string) : Prop :=
  (∀ c r, v = String c r → PyStr.is_space c = false)
  ∧ (∀ r c, v = r +:+ String c "" → PyStr.is_space c = false).

(** An environment variable is bound to a non-empty text. *)
Definition key_given (environ : gmap string string) (name : string) : Prop :=
  ∃ c s, environ !! name = Some (String c s).

Definition sample_environ : gmap string string :=
  {[ "TAVILY_API_KEY" := "tvly-123"; "GROQ_API_KEY" := "" ]}.

(** The dictionary after the input "industry IT" on a fresh session. *)
Definition state_industry_IT : ContractState :=
  {| messages := Some [HumanMessage "industry IT"];
     industry := Some (PyStr "IT");
     contract_type := Some PyNone;
     location := Some (PyStr "industry IT");
     budget_range := Some PyNone |}.

(** A text made of whitespace only. *)
Fixpoint contains_only_spaces (s : string) : bool :=
  match s with
  | EmptyString => true
  | String c s' => PyStr.is_space c && contains_only_spaces s'
  end.

(** * Properties *)

(** ** Strings *)

Module PyStrFacts.
Import PyStr.

Lemma startswith_lower p s :
  startswith p s = true → startswith (lower p) (lower s) = true.
Proof.
  revert s. induction p as [|a p IH]; intros [|b s]; simpl; try done.
  destruct (Ascii.eqb a b) eqn:E; [|done].
  apply Ascii.eqb_eq in E as ->. rewrite Ascii.eqb_refl. apply IH.
Qed.

Lemma contains_lower sub s :
  contains sub s = true → contains (lower sub) (lower s) = true.
Proof.
  induction s as [|b s IH]; simpl.
  - rewrite !orb_false_r. apply (startswith_lower sub "").
  - intros [H|H]%orb_true_iff; apply orb_true_iff.
    + left. apply (startswith_lower sub (String b s) H).
    + right. auto.
Qed.

(** A keyword in lower case that the lowered text lacks is not in the text
    either. *)
Lemma not_contains_lower sub s :
  lower sub = sub → contains sub (lower s) = false → contains sub s = false.
Proof.
  intros Hsub Hno. destruct (contains sub s) eqn:E; [|done].
  apply contains_lower in E. congruence.
Qed.

Lemma split_go_absent sep s :
  sep ≠ "" → contains sep s = false → split_go sep 0 s = [s].
Proof.
  intros Hsep. induction s as [|a s IH]; [done|].
  cbn [contains split_go]. intros [H1 H2]%orb_false_iff.
  rewrite H1, (IH H2). done.
Qed.

Lemma split_go_nonempty sep skip s : split_go sep skip s ≠ [].
Proof.
  revert skip. induction s as [|a s IH]; intros skip; [done|].
  cbn [split_go]. destruct skip; [|apply IH].
  destruct (startswith sep (String a s)); [done|].
  destruct (split_go sep 0 s); done.
Qed.

Lemma slice_to_length n s :
  String.length (slice_to n s) = n `min` String.length s.
Proof.
  revert s. induction n as [|n IH]; intros [|c s]; simpl; auto.
Qed.

Lemma slice_to_prefix n s : is_prefix (slice_to n s) s.
Proof.
  revert s. induction n as [|n IH]; intros s.
  - exists s. by destruct s.
  - destruct s as [|c s]; [by exists ""|].
    destruct (IH s) as [rest Hrest]. exists rest.
    exact (f_equal (String c) Hrest).
Qed.

Lemma slice_to_short n s : String.length s ≤ n → slice_to n s = s.
Proof.
  revert s. induction n as [|n IH]; intros [|c s]; simpl; try done; [lia|].
  intros H. f_equal. apply IH. lia.
Qed.

End PyStrFacts.

(** ** More on strings: occurrences, splitting, stripping *)

Module PyStrMore.
Import PyStr.

Lemma app_cons a s t : String a s +:+ t = String a (s +:+ t).
Proof. reflexivity. Qed.

Lemma app_nil_l s : "" +:+ s = s.
Proof. reflexivity. Qed.

(** Push appends below the leading characters, everywhere. *)
Ltac sapp := rewrite ?app_cons, ?app_nil_l in *.

Lemma app_nil_r s : s +:+ "" = s.
Proof. induction s as [|a s IH]; [done|]. sapp. by rewrite IH. Qed.

Lemma app_assoc s1 s2 s3 : (s1 +:+ s2) +:+ s3 = s1 +:+ s2 +:+ s3.
Proof. induction s1 as [|a s1 IH]; [done|]. sapp. by rewrite IH. Qed.

Lemma startswith_app p rest : startswith p (p +:+ rest) = true.
Proof.
  induction p as [|a p IH]; [done|]. sapp; cbn [startswith].
  by rewrite Ascii.eqb_refl.
Qed.

Lemma startswith_inv p s : startswith p s = true → ∃ rest, s = p +:+ rest.
Proof.
  revert s. induction p as [|a p IH]; intros s; [by exists s|].
  destruct s as [|b s]; [done|]. cbn [startswith].
  destruct (Ascii.eqb a b) eqn:E; [|done]. apply Ascii.eqb_eq in E as <-.
  intros [rest ->]%IH. by exists rest.
Qed.

Lemma startswith_shorter p q s :
  startswith (p +:+ q) s = true → startswith p s = true.
Proof.
  intros [rest ->]%startswith_inv. rewrite app_assoc. apply startswith_app.
Qed.

(** [sub in s] holds exactly when [s] can be cut around an occurrence. *)
Lemma contains_app before sub after : contains sub (before +:+ sub +:+ after) = true.
Proof.
  induction before as [|a before IH].
  - sapp. destruct (sub +:+ after) eqn:E; cbn [contains];
      rewrite <- E, startswith_app; done.
  - sapp; cbn [contains]. rewrite IH. apply orb_true_r.
Qed.

Lemma contains_inv sub s :
  contains sub s = true → ∃ before after, s = before +:+ sub +:+ after.
Proof.
  induction s as [|a s IH]; cbn [contains].
  - rewrite orb_false_r. intros [rest ->]%startswith_inv. by exists "", rest.
  - intros [H|H]%orb_true_iff.
    + apply startswith_inv in H as [rest ->]. by exists "", rest.
    + destruct (IH H) as (before & after & ->). by exists (String a before), after.
Qed.

Lemma contains_shorter p q s : contains (p +:+ q) s = true → contains p s = true.
Proof.
  intros (before & after & ->)%contains_inv. rewrite app_assoc. apply contains_app.
Qed.

Lemma contains_empty_false sep : sep ≠ "" → contains sep "" = false.
Proof. by destruct sep. Qed.

(** What [split_go] returns once [skipped] has been passed over: either the
    rest in one piece, free of the separator, or several pieces, the last of
    which is what follows an occurrence and is free of the separator. *)
Lemma split_go_spec sep :
  sep ≠ "" →
  ∀ s skipped rest,
    s = skipped +:+ rest →
    (split_go sep (String.length skipped) s = [rest] ∧ contains sep rest = false)
    ∨ (∃ init before after,
         split_go sep (String.length skipped) s = init ++ [after]
         ∧ init ≠ []
         ∧ rest = before +:+ sep +:+ after
         ∧ contains sep after = false).
Proof.
  intros Hsep. induction s as [|a s IH]; intros skipped rest Hs.
  - destruct skipped; [|done]. sapp. subst rest.
    left. split; [done|]. by apply contains_empty_false.
  - destruct skipped as [|b skipped].
    + sapp. subst rest. cbn [String.length split_go].
      destruct (startswith sep (String a s)) eqn:Hstart.
      * right. destruct sep as [|c sep']; [done|].
        destruct (startswith_inv _ _ Hstart) as [tail Htail].
        sapp. injection Htail as <- ->.
        replace (String.length (String a sep') - 1) with (String.length sep')
          by (cbn [String.length]; lia).
        destruct (IH sep' tail eq_refl) as [[-> Hno]|(init & before & after & -> & Hinit & -> & Hno)].
        -- exists [""], "", tail. by repeat split.
        -- exists ("" :: init), (String a sep' +:+ before), after.
           repeat split; try done. by rewrite !app_assoc.
      * destruct (IH "" s eq_refl) as [[Hsplit Hno]|(init & before & after & Hsplit & Hinit & -> & Hno)];
          cbn [String.length] in Hsplit; rewrite Hsplit.
        -- left. split; [done|]. cbn [contains]. by rewrite Hstart, Hno.
        -- right. destruct init as [|h init]; [done|].
           exists (String a h :: init), (String a before), after. by repeat split.
    + sapp. injection Hs as <- ->.
      cbn [String.length split_go]. apply (IH skipped rest eq_refl).
Qed.

(** The last part of a split: the whole text when the separator does not
    occur, and otherwise what follows an occurrence after which there is no
    further one. *)
Lemma split_go_last sep s :
  sep ≠ "" →
  ∃ tail,
    last (split_go sep 0 s) = Some tail
    ∧ contains sep tail = false
    ∧ (contains sep s = false → tail = s)
    ∧ (contains sep s = true → ∃ before, s = before +:+ sep +:+ tail).
Proof.
  intros Hsep.
  destruct (split_go_spec sep Hsep s "" s eq_refl)
    as [[Hsplit Hno]|(init & before & after & Hsplit & Hinit & -> & Hno)];
    cbn [String.length] in Hsplit; rewrite Hsplit.
  - exists s. repeat split; try done. congruence.
  - exists after. rewrite last_snoc. repeat split; try done.
    + by rewrite contains_app.
    + intros _. by exists before.
Qed.

(** *** Stripping *)

Lemma lstrip_spec s :
  ∃ spaces, s = spaces +:+ lstrip s
            ∧ contains_only_spaces spaces = true
            ∧ ∀ c r, lstrip s = String c r → is_space c = false.
Proof.
  induction s as [|a s (spaces & Hs & Hsp & Hfirst)].
  - by exists "".
  - cbn [lstrip]. destruct (is_space a) eqn:E.
    + exists (String a spaces). sapp. rewrite <- Hs.
      split; [done|]. split; [|done]. cbn [contains_only_spaces]. by rewrite E, Hsp.
    + exists "". split; [done|]. split; [done|]. by intros c r [= <- <-].
Qed.

Lemma rstrip_spec s :
  ∃ spaces, s = rstrip s +:+ spaces
            ∧ contains_only_spaces spaces = true
            ∧ ∀ r c, rstrip s = r +:+ String c "" → is_space c = false.
Proof.
  induction s as [|a s (spaces & Hs & Hsp & Hlast)].
  - exists "". split; [done|]. split; [done|]. by intros [|??] ?.
  - cbn [rstrip]. destruct (rstrip s) as [|b t] eqn:Er.
    + sapp. subst s. destruct (is_space a) eqn:E.
      * exists (String a spaces). split; [done|]. split; [|by intros [|??] ?].
        cbn [contains_only_spaces]. by rewrite E, Hsp.
      * exists spaces. split; [done|]. split; [done|].
        intros [|??] c; sapp; [by intros [= <-]|].
        intros [= _ H]. by destruct s.
    + exists spaces. sapp. rewrite <- Hs. split; [done|].
      split; [done|]. intros [|a' r] c; sapp; [done|].
      intros [= <- H]. by apply (Hlast r c).
Qed.

(** Dropping trailing spaces keeps the first character. *)
Lemma rstrip_first s c r :
  rstrip s = String c r → ∃ r', s = String c r'.
Proof.
  destruct (rstrip_spec s) as (spaces & Hs & _). intros E. rewrite E in Hs.
  by eexists.
Qed.

End PyStrMore.

(** ** Exceptions that cannot happen *)

Lemma after_keyword_absent keyword user_input :
  keyword ≠ "" →
  PyStr.contains keyword user_input = false →
  after_keyword keyword user_input = Ok (PyStr.strip user_input).
Proof.
  intros Hk Hno. unfold after_keyword, split.
  destruct keyword as [|a k]; [done|].
  rewrite PyStrFacts.split_go_absent by done. done.
Qed.

Lemma after_keyword_ok keyword user_input :
  keyword ≠ "" → ∃ v, after_keyword keyword user_input = Ok v.
Proof.
  intros Hk. unfold after_keyword, split, last_item.
  destruct keyword as [|a k]; [done|]. cbn [mbind result_bind].
  destruct (last (PyStr.split_go (String a k) 0 user_input)) eqn:E; [by eexists|].
  apply last_None in E. by apply PyStrFacts.split_go_nonempty in E.
Qed.

(** ** Truth values of fields *)

Lemma truthy_get_false field : truthy (get field) = false ↔ blank field.
Proof.
  unfold blank, unset. destruct field as [[|[|c s]]|]; simpl; split; intros H; try done; auto.
  - destruct H as [[H|H]|H]; discriminate.
Qed.

Lemma truthy_get_true field : truthy (get field) = true ↔ filled field.
Proof.
  unfold filled. destruct field as [[|[|c s]]|]; simpl; split; intros H; try done;
    try (destruct H as (? & ? & H); discriminate).
  by exists c, s.
Qed.

Lemma blank_or_filled field : blank field ∨ filled field.
Proof.
  destruct (truthy (get field)) eqn:E.
  - right. by apply truthy_get_true.
  - left. by apply truthy_get_false.
Qed.

Lemma not_all_required st :
  all [get (industry st); get (contract_type st); get (location st)] = false
  ↔ blank (industry st) ∨ blank (contract_type st) ∨ blank (location st).
Proof.
  unfold all. cbn [forallb]. rewrite andb_true_r.
  rewrite <- !truthy_get_false.
  destruct (truthy (get (industry st))), (truthy (get (contract_type st))),
    (truthy (get (location st))); simpl; intuition discriminate.
Qed.

Lemma last_is_user_spec st :
  nonempty (default [] (messages st))
  && from_option is_HumanMessage false (last (default [] (messages st))) = true
  ↔ last_is_user st.
Proof.
  unfold last_is_user. destruct (messages st) as [ms|]; simpl.
  - destruct (last ms) as [m|] eqn:E.
    + apply last_Some in E as [earlier ->]. split.
      * intros [_ Hm]%andb_true_iff. simpl in Hm.
        destruct m; [|done]. by eexists _, _.
      * intros (e' & text & [= H]). apply app_inj_tail in H as [_ ->].
        simpl. by destruct earlier.
    + apply last_None in E as ->. simpl. split; [done|].
      intros (e' & text & [= H]). by destruct e'.
  - split; [done|]. by intros (? & ? & ?).
Qed.

(** ** Routing *)

Lemma route_to_search_cases st :
  route_to_search st =
    if nonempty (default [] (messages st))
       && from_option is_HumanMessage false (last (default [] (messages st)))
       && negb (all [get (industry st); get (contract_type st); get (location st)])
    then "input_gathering" else "contract_search".
Proof.
  unfold route_to_search.
  destruct (nonempty _ && from_option _ _ _); [|done].
  by destruct (negb _).
Qed.

Lemma route_to_search_blank st :
  last_is_user st →
  blank (industry st) ∨ blank (contract_type st) ∨ blank (location st) →
  route_to_search st = "input_gathering".
Proof.
  intros Hu%last_is_user_spec Hb%not_all_required.
  by rewrite route_to_search_cases, Hu, Hb.
Qed.

(** C1, counterexample: no required field of [state_empty_industry] is unset
    (industry is the string ''), so the claim sends it to contract_search; the
    code sends it back to input_gathering. *)
Lemma route_to_search_unset_counterexample :
  last_is_user state_empty_industry
  ∧ ¬ (unset (industry state_empty_industry)
       ∨ unset (contract_type state_empty_industry)
       ∨ unset (location state_empty_industry))
  ∧ route_to_search state_empty_industry = "input_gathering"
  ∧ route_to_search state_empty_industry ≠ "contract_search".
Proof.
  split; [by exists [], "hi"|]. split; [|by split].
  unfold unset. simpl. intros [[?|?]|[[?|?]|[?|?]]]; discriminate.
Qed.

(** C1, amended: the routing decision returns "input_gathering" exactly when
    the message sequence is non-empty, its last message is the user's, and at
    least one of industry, contract_type, location is unset or the empty
    string; in every other case it returns "contract_search". *)
Theorem route_to_search_spec (st : ContractState) :
  let missing :=
    blank (industry st) ∨ blank (contract_type st) ∨ blank (location st) in
  (route_to_search st = "input_gathering" ↔ last_is_user st ∧ missing)
  ∧ (route_to_search st = "contract_search" ↔ ¬ (last_is_user st ∧ missing)).
Proof.
  intros missing. subst missing.
  rewrite <- last_is_user_spec, <- not_all_required, route_to_search_cases.
  generalize (all [get (industry st); get (contract_type st); get (location st)]).
  destruct (nonempty _ && from_option _ _ _); intros []; simpl;
    intuition discriminate.
Qed.

(** ** The query of the search step *)

(** C2, the code at the failing input: with budget_range bound to [None] the
    query ends in "None", not in "any"; the fallback "any" is only used when
    the key budget_range is missing from the dictionary. *)
Theorem search_query_budget_none :
  search_query state_austin
    = "Latest Full-time contract opportunities in IT industry located in Austin with budget range None"
  ∧ search_query state_austin
    ≠ "Latest Full-time contract opportunities in IT industry located in Austin with budget range any"
  ∧ search_query state_austin_no_budget_key
    = "Latest Full-time contract opportunities in IT industry located in Austin with budget range any".
Proof. by vm_compute. Qed.

(** The fallbacks of the query apply to missing keys only: a key bound to
    [None] is rendered as the text "None". *)
Lemma search_query_fallbacks :
  search_query empty_channels
    = "Latest  contract opportunities in  industry located in  with budget range any"
  ∧ search_query initial_state
    = "Latest None contract opportunities in None industry located in None with budget range None".
Proof. by vm_compute. Qed.

(** ** The detail-gathering step *)

Lemma gather_contract_details_cases st :
  gather_contract_details st =
    messages_only [AIMessage
      (if all [get (industry st); get (contract_type st); get (location st)]
       then acknowledgment else clarification_prompt)].
Proof. unfold gather_contract_details. by destruct (all _). Qed.

Lemma gather_contract_details_blank st :
  blank (industry st) ∨ blank (contract_type st) ∨ blank (location st) →
  gather_contract_details st = messages_only [AIMessage clarification_prompt].
Proof.
  intros H%not_all_required. by rewrite gather_contract_details_cases, H.
Qed.

Lemma messages_only_keeps_scalar_fields st ms :
  keeps_scalar_fields st (messages_only ms).
Proof. by repeat split. Qed.

(** C3, counterexample: all three required fields of [state_empty_industry]
    are set (industry to the string ''), yet the step answers with the
    clarification prompt and not with the acknowledgment. *)
Lemma gather_contract_details_set_counterexample :
  ¬ (unset (industry state_empty_industry)
     ∨ unset (contract_type state_empty_industry)
     ∨ unset (location state_empty_industry))
  ∧ gather_contract_details state_empty_industry
    = messages_only [AIMessage clarification_prompt]
  ∧ gather_contract_details state_empty_industry
    ≠ messages_only [AIMessage acknowledgment].
Proof.
  split; [|by split].
  unfold unset. simpl. intros [[?|?]|[[?|?]|[?|?]]]; discriminate.
Qed.

(** C3, amended: when at least one of industry, contract_type, location is
    unset or the empty string, the step returns the single assistant message
    with the fixed clarification prompt, which lists all four questions
    whatever is already known; when all three hold non-empty strings it
    returns the single assistant message with the fixed acknowledgment; in
    both cases the scalar fields are left alone. *)
Theorem gather_contract_details_spec (st : ContractState) :
  (blank (industry st) ∨ blank (contract_type st) ∨ blank (location st) →
   gather_contract_details st = messages_only [AIMessage clarification_prompt])
  ∧ (filled (industry st) ∧ filled (contract_type st) ∧ filled (location st) →
     gather_contract_details st = messages_only [AIMessage acknowledgment])
  ∧ keeps_scalar_fields st (gather_contract_details st)
  ∧ Forall (λ question, PyStr.contains question clarification_prompt = true)
      ["1. What industry are you looking for contracts in?";
       "2. What type of contract are you seeking?";
       "3. In which location are you looking for contracts?";
       "4. Do you have a specific budget range in mind?"].
Proof.
  split; [apply gather_contract_details_blank|].
  rewrite gather_contract_details_cases. repeat split.
  - intros (Hi & Hc & Hl). apply truthy_get_true in Hi, Hc, Hl.
    unfold all. cbn [forallb]. by rewrite Hi, Hc, Hl.
  - repeat constructor.
Qed.

Lemma gather_contract_details_spec_witness :
  gather_contract_details initial_state
    = messages_only [AIMessage clarification_prompt]
  ∧ gather_contract_details state_austin
    = messages_only [AIMessage acknowledgment].
Proof.
  split.
  - apply (gather_contract_details_spec initial_state).
    left. left. right. reflexivity.
  - apply (gather_contract_details_spec state_austin).
    repeat split; eexists _, _; reflexivity.
Defined.

(** ** The empty string as a field value *)

(** C10: a required field whose value is the empty string is treated like an
    unset one by the detail-gathering step and by the routing decision: the
    step returns the clarification prompt, routing after a user message
    returns "input_gathering", and replacing the empty string by [None] or
    removing the key changes neither answer. *)
Theorem empty_string_like_unset (st : ContractState) :
  industry st = Some (PyStr "") ∨ contract_type st = Some (PyStr "")
  ∨ location st = Some (PyStr "") →
  gather_contract_details st = messages_only [AIMessage clarification_prompt]
  ∧ (last_is_user st → route_to_search st = "input_gathering")
  ∧ ∀ ms i c l b i' c' l',
      st = mkState ms i c l b →
      (i = Some (PyStr "") ∧ unset i' ∧ c' = c ∧ l' = l)
      ∨ (c = Some (PyStr "") ∧ i' = i ∧ unset c' ∧ l' = l)
      ∨ (l = Some (PyStr "") ∧ i' = i ∧ c' = c ∧ unset l') →
      gather_contract_details (mkState ms i' c' l' b) = gather_contract_details st
      ∧ route_to_search (mkState ms i' c' l' b) = route_to_search st.
Proof.
  intros Hempty.
  assert (Hblank : blank (industry st) ∨ blank (contract_type st) ∨ blank (location st))
    by (unfold blank; tauto).
  split; [by apply gather_contract_details_blank|].
  split; [intros Hu; by apply route_to_search_blank|].
  intros ms i c l b i' c' l' -> H.
  rewrite !gather_contract_details_cases, !route_to_search_cases.
  cbn [messages industry contract_type location].
  assert (Hall : all [get i'; get c'; get l'] = all [get i; get c; get l]).
  { unfold all, unset in *. cbn [forallb].
    destruct H as [(-> & [->| ->] & -> & ->)|[(-> & -> & [->| ->] & ->)
                  |(-> & -> & -> & [->| ->])]]; simpl;
      rewrite ?andb_false_r; reflexivity. }
  by rewrite Hall.
Qed.

Lemma empty_string_like_unset_witness :
  gather_contract_details state_empty_industry
    = messages_only [AIMessage clarification_prompt]
  ∧ route_to_search state_empty_industry = "input_gathering".
Proof.
  destruct (empty_string_like_unset state_empty_industry) as (Hg & Hr & _).
  - left. reflexivity.
  - split; [exact Hg|]. apply Hr. exists [], "hi". reflexivity.
Defined.

(** ** Normalising raw hits *)

Lemma raw_get_Some (r : RawResult) k dflt v :
  r !! k = Some v → raw_get r k dflt = v.
Proof. unfold raw_get. by intros ->. Qed.

Lemma raw_get_None (r : RawResult) k dflt :
  r !! k = None → raw_get r k dflt = dflt.
Proof. unfold raw_get. by intros ->. Qed.

Lemma raw_get_removed (r : RawResult) missing k dflt :
  (k ∈ missing ∨ r !! k = None → raw_get (foldr delete r missing) k dflt = dflt)
  ∧ (∀ v, k ∉ missing → r !! k = Some v →
       raw_get (foldr delete r missing) k dflt = v).
Proof.
  split.
  - intros H. apply raw_get_None. destruct H as [H|H].
    + by apply lookup_foldr_delete.
    + destruct (decide (k ∈ missing)); [by apply lookup_foldr_delete|].
      by rewrite lookup_foldr_delete_not_elem_of.
  - intros v Hk Hv. apply raw_get_Some.
    by rewrite lookup_foldr_delete_not_elem_of.
Qed.

(** C7: for every raw hit and every set of keys taken away from it, the
    normalised record holds, key by key and independently of the other keys,
    "Untitled Contract Opportunity" for a missing title, "No URL available"
    for a missing url and "No description available" for a missing content,
    and the hit's own value for every key that is present. *)
Theorem processed_result_defaults (r : RawResult) (missing : list string) :
  normalised_key "title" "Untitled Contract Opportunity" title r missing
  ∧ normalised_key "url" "No URL available" url r missing
  ∧ normalised_key "content" "No description available" content r missing.
Proof. repeat split; cbn [processed_result title url content]; apply raw_get_removed. Qed.

Lemma processed_result_defaults_witness :
  processed_result (foldr delete full_hit ["url"; "content"])
  = {| title := "Data platform contract";
       url := "No URL available";
       content := "No description available" |}.
Proof.
  destruct (processed_result_defaults full_hit ["url"; "content"])
    as ((_ & Ht) & (Hu & _) & (Hc & _)).
  specialize (Ht "Data platform contract").
  destruct (processed_result (foldr delete full_hit ["url"; "content"])) as [t u c].
  simpl in *. f_equal.
  - apply Ht; [|reflexivity].
    intros Hin%list_elem_of_In. simpl in Hin. intuition discriminate.
  - apply Hu. left. apply list_elem_of_In. simpl. auto.
  - apply Hc. left. apply list_elem_of_In. simpl. auto.
Defined.

(** ** The search step *)

Lemma join_concat sep l : PyStr.join sep l = String.concat sep l.
Proof.
  induction l as [|x l IH]; [done|]. destruct l as [|y l]; [done|].
  change (PyStr.join sep (x :: y :: l)) with (x +:+ sep +:+ PyStr.join sep (y :: l)).
  by rewrite IH.
Qed.

Lemma slice_to_substring n s : PyStr.slice_to n s = String.substring 0 n s.
Proof. revert s. induction n as [|n IH]; intros [|c s]; cbn; [done..|]. by rewrite IH. Qed.

Lemma format_result_text i hit :
  format_result i (processed_result hit)
  = NilEmpty.string_of_uint (Nat.to_uint (i + 1)) +:+ ". "
    +:+ default "Untitled Contract Opportunity" (hit !! "title") +:+ "
" +:+ "   URL: " +:+ default "No URL available" (hit !! "url") +:+ "
" +:+ "   Description: "
    +:+ String.substring 0 200 (default "No description available" (hit !! "content"))
    +:+ "...".
Proof.
  unfold format_result, processed_result, raw_get, PyStr.str_int.
  cbn [title url content]. by rewrite slice_to_substring.
Qed.

Section SearchStep.

Variable search_tool : string → result (list RawResult).

Lemma safe_search_contracts_hits st hits :
  search_tool (search_query st) = Ok hits →
  safe_search_contracts search_tool st = ([], Ok (map processed_result hits)).
Proof.
  intros H. unfold safe_search_contracts, try_except, lift.
  cbn [mbind Py_bind]. rewrite H. reflexivity.
Qed.

Lemma safe_search_contracts_raise st cls msg :
  search_tool (search_query st) = Raise (Exn cls msg) →
  safe_search_contracts search_tool st
  = (["Error in contract search: " +:+ msg], Ok []).
Proof.
  intros H. unfold safe_search_contracts, try_except, lift.
  cbn [mbind Py_bind]. rewrite H. reflexivity.
Qed.

Lemma safe_search_contracts_base st cls msg :
  search_tool (search_query st) = Raise (BaseExn cls msg) →
  safe_search_contracts search_tool st = ([], Raise (BaseExn cls msg)).
Proof.
  intros H. unfold safe_search_contracts, try_except, lift.
  cbn [mbind Py_bind]. rewrite H. reflexivity.
Qed.

(** The search step ends normally unless the tool raises an exception outside
    Exception. *)
Lemma search_contracts_total st :
  no_base_exception (search_tool (search_query st)) →
  ∃ out update, search_contracts search_tool st = (out, Ok update)
                ∧ ∃ text, update = messages_only [AIMessage text].
Proof.
  intros Hno. unfold search_contracts.
  destruct (search_tool (search_query st)) as [hits|[cls msg|cls msg]] eqn:E.
  - rewrite (safe_search_contracts_hits _ _ E). cbn [mbind Py_bind mret Py_ret].
    eexists _, _. split; [reflexivity|]. destruct (map _ _); by eexists.
  - rewrite (safe_search_contracts_raise _ _ _ E). cbn [mbind Py_bind mret Py_ret].
    eexists _, _. split; [reflexivity|]. by eexists.
  - by destruct (Hno cls msg).
Qed.

Lemma search_contracts_base st cls msg :
  search_tool (search_query st) = Raise (BaseExn cls msg) →
  search_contracts search_tool st = ([], Raise (BaseExn cls msg)).
Proof.
  intros H. unfold search_contracts.
  by rewrite (safe_search_contracts_base _ _ _ H).
Qed.

End SearchStep.

(** C4, counterexample: a KeyboardInterrupt raised by the tool is not caught
    by [except Exception] and leaves the search step as an exception; and for
    a tool that raises a TimeoutError the step does not behave exactly as for
    zero results, since it also writes an error line to the console the user
    reads. *)
Lemma search_contracts_exception_counterexample :
  search_contracts interrupted_tool state_austin
  = ([], Raise (BaseExn "KeyboardInterrupt" ""))
  ∧ search_contracts failing_tool state_austin
    = (["Error in contract search: timed out"],
       Ok (mkState (Some [AIMessage "I'm sorry, but I couldn't find any contract opportunities matching your criteria. Would you like to modify your search parameters?"])
             None None None None))
  ∧ search_contracts failing_tool state_austin
    ≠ search_contracts (λ _, Ok []) state_austin.
Proof. by repeat split. Qed.

(** C4, amended: when the search tool raises an exception derived from
    Exception, the search step does not raise: it returns exactly the update
    it returns when the tool finds nothing, the single assistant message with
    the fixed apology, and differs from that run only by the line "Error in
    contract search: ..." it writes to the console; an exception outside
    Exception (KeyboardInterrupt, SystemExit) is propagated. *)
Theorem search_contracts_catches_Exception
    (search_tool : string → result (list RawResult)) (st : ContractState)
    (cls msg : string) :
  (search_tool (search_query st) = Raise (Exn cls msg) →
   search_contracts search_tool st
   = (["Error in contract search: " +:+ msg],
      Ok (mkState (Some [AIMessage "I'm sorry, but I couldn't find any contract opportunities matching your criteria. Would you like to modify your search parameters?"])
            None None None None))
   ∧ search_contracts (λ _, Ok []) st
     = ([],
        Ok (mkState (Some [AIMessage "I'm sorry, but I couldn't find any contract opportunities matching your criteria. Would you like to modify your search parameters?"])
              None None None None)))
  ∧ (search_tool (search_query st) = Raise (BaseExn cls msg) →
     search_contracts search_tool st = ([], Raise (BaseExn cls msg))).
Proof.
  split.
  - intros H. split.
    + unfold search_contracts. by rewrite (safe_search_contracts_raise _ _ _ _ H).
    + unfold search_contracts.
      by rewrite (safe_search_contracts_hits (λ _, Ok []) st [] eq_refl).
  - apply search_contracts_base.
Qed.

Lemma search_contracts_catches_Exception_witness :
  search_contracts failing_tool state_austin
  = (["Error in contract search: timed out"],
     Ok (mkState (Some [AIMessage "I'm sorry, but I couldn't find any contract opportunities matching your criteria. Would you like to modify your search parameters?"])
           None None None None))
  ∧ search_contracts interrupted_tool state_austin
    = ([], Raise (BaseExn "KeyboardInterrupt" "")).
Proof.
  destruct (search_contracts_catches_Exception failing_tool state_austin
              "TimeoutError" "timed out") as [Hcaught _].
  destruct (search_contracts_catches_Exception interrupted_tool state_austin
              "KeyboardInterrupt" "") as [_ Hpassed].
  split; [exact (proj1 (Hcaught eq_refl))|exact (Hpassed eq_refl)].
Defined.

(** The reply of the search step for a non-empty list of hits: the header,
    then one entry per hit, in the order of the hits, separated by blank
    lines. *)
Lemma search_contracts_reply search_tool st hits :
  search_tool (search_query st) = Ok hits →
  hits ≠ [] →
  search_contracts search_tool st
  = ([], Ok (mkState
               (Some [AIMessage
                        ("I've found some contract opportunities matching your criteria:

" +:+ String.concat "

" (imap (λ i hit, format_result i (processed_result hit)) hits))])
               None None None None)).
Proof.
  intros H Hne. unfold search_contracts.
  rewrite (safe_search_contracts_hits _ _ _ H).
  destruct hits as [|h hits]; [done|]. cbn [mbind Py_bind mret Py_ret map].
  rewrite join_concat. do 5 f_equal.
  change (processed_result h :: map processed_result hits)
    with (processed_result <$> (h :: hits)).
  by rewrite imap_fmap.
Qed.

(** C6: in the reply of the search step, the entry of every hit ends with
    "   Description: ", the first 200 characters of the hit's content (the
    fallback text when the hit has none) and "..."; nothing depends on the
    length, so a content of at most 200 characters is shown whole, followed by
    "...". *)
Theorem search_contracts_snippet
    (search_tool : string → result (list RawResult)) (st : ContractState)
    (hits : list RawResult) :
  search_tool (search_query st) = Ok hits →
  hits ≠ [] →
  ∃ entries,
    search_contracts search_tool st
    = ([], Ok (mkState
                 (Some [AIMessage
                          ("I've found some contract opportunities matching your criteria:

" +:+ String.concat "

" entries)])
                 None None None None))
    ∧ length entries = length hits
    ∧ ∀ i hit, hits !! i = Some hit →
        ∃ lead snippet rest,
          entries !! i = Some (lead +:+ "   Description: " +:+ snippet +:+ "...")
          ∧ default "No description available" (hit !! "content") = snippet +:+ rest
          ∧ String.length snippet
            = 200 `min` String.length
                          (default "No description available" (hit !! "content"))
          ∧ (String.length (default "No description available" (hit !! "content"))
             ≤ 200 →
             snippet = default "No description available" (hit !! "content")).
Proof.
  intros H Hne.
  exists (imap (λ i hit, format_result i (processed_result hit)) hits).
  split; [by apply search_contracts_reply|]. split; [by rewrite length_imap|].
  intros i hit Hi. rewrite list_lookup_imap, Hi. cbn [fmap option_fmap option_map].
  set (text := default "No description available" (hit !! "content")).
  exists (NilEmpty.string_of_uint (Nat.to_uint (i + 1)) +:+ ". "
          +:+ default "Untitled Contract Opportunity" (hit !! "title") +:+ "
" +:+ "   URL: " +:+ default "No URL available" (hit !! "url") +:+ "
"), (PyStr.slice_to 200 text).
  destruct (PyStrFacts.slice_to_prefix 200 text) as [rest Hrest].
  exists rest. split; [|split; [done|split]].
  - rewrite format_result_text, <- slice_to_substring.
    rewrite !PyStrMore.app_assoc. reflexivity.
  - apply PyStrFacts.slice_to_length.
  - apply PyStrFacts.slice_to_short.
Qed.

Lemma search_contracts_snippet_witness :
  ∃ entries,
    search_contracts (λ _, Ok [ {[ "content" := "short text" ]} ]) state_austin
    = ([], Ok (mkState
                 (Some [AIMessage
                          ("I've found some contract opportunities matching your criteria:

" +:+ String.concat "

" entries)])
                 None None None None))
    ∧ ∃ lead, entries !! 0 = Some (lead +:+ "   Description: short text...").
Proof.
  destruct (search_contracts_snippet (λ _, Ok [ {[ "content" := "short text" ]} ])
              state_austin [ {[ "content" := "short text" ]} ] eq_refl)
    as (entries & He & _ & Hnth); [done|].
  exists entries. split; [exact He|].
  destruct (Hnth 0 {[ "content" := "short text" ]} eq_refl)
    as (lead & snippet & rest & Hentry & _ & _ & Hshort).
  exists lead. rewrite Hentry, Hshort; [reflexivity|]. vm_compute. lia.
Defined.

(** The numbers of the list are written in decimal. *)
Lemma str_int_1_to_5 :
  PyStr.str_int <$> [1; 2; 3; 4; 5] = ["1"; "2"; "3"; "4"; "5"].
Proof. reflexivity. Qed.

(** C5: when the tool returns no hit, the search step returns exactly the
    single assistant message with the fixed apology; when it returns N >= 1
    hits, it returns a single assistant message whose text is the header
    followed by N entries separated by blank lines, the entry of the i-th hit
    (from 0) being the number i+1 in decimal, the title, the URL and the
    snippet, each with its fallback when the hit lacks the key. *)
Theorem search_contracts_enumerates
    (search_tool : string → result (list RawResult)) (st : ContractState)
    (hits : list RawResult) :
  search_tool (search_query st) = Ok hits →
  (hits = [] →
   search_contracts search_tool st
   = ([], Ok (mkState (Some [AIMessage "I'm sorry, but I couldn't find any contract opportunities matching your criteria. Would you like to modify your search parameters?"])
                None None None None)))
  ∧ (hits ≠ [] →
     ∃ entries,
       search_contracts search_tool st
       = ([], Ok (mkState
                    (Some [AIMessage
                             ("I've found some contract opportunities matching your criteria:

" +:+ String.concat "

" entries)])
                    None None None None))
       ∧ length entries = length hits
       ∧ ∀ i hit, hits !! i = Some hit →
           entries !! i
           = Some (NilEmpty.string_of_uint (Nat.to_uint (i + 1)) +:+ ". "
                   +:+ default "Untitled Contract Opportunity" (hit !! "title") +:+ "
" +:+ "   URL: " +:+ default "No URL available" (hit !! "url") +:+ "
" +:+ "   Description: "
                   +:+ String.substring 0 200
                         (default "No description available" (hit !! "content"))
                   +:+ "...")).
Proof.
  intros H. split.
  - intros ->. unfold search_contracts.
    by rewrite (safe_search_contracts_hits _ _ _ H).
  - intros Hne.
    exists (imap (λ i hit, format_result i (processed_result hit)) hits).
    split; [by apply search_contracts_reply|]. split; [by rewrite length_imap|].
    intros i hit Hi. rewrite list_lookup_imap, Hi. cbn [fmap option_fmap option_map].
    by rewrite format_result_text.
Qed.

Lemma search_contracts_enumerates_witness :
  search_contracts (λ _, Ok []) state_austin
  = ([], Ok (mkState (Some [AIMessage "I'm sorry, but I couldn't find any contract opportunities matching your criteria. Would you like to modify your search parameters?"])
               None None None None))
  ∧ search_contracts (λ _, Ok two_hits) state_austin
    = ([], Ok (mkState
                 (Some [AIMessage "I've found some contract opportunities matching your criteria:

1. Data platform contract
   URL: https://example.org/1
   Description: Six months, remote...

2. Untitled Contract Opportunity
   URL: No URL available
   Description: No description available..."])
                 None None None None)).
Proof.
  split.
  - by apply (search_contracts_enumerates (λ _, Ok []) state_austin [] eq_refl).
  - destruct (search_contracts_enumerates (λ _, Ok two_hits) state_austin
                two_hits eq_refl) as [_ H].
    destruct H as (entries & He & Hlen & Hnth); [done|].
    pose proof (Hnth 0 full_hit eq_refl) as H0.
    pose proof (Hnth 1 ∅ eq_refl) as H1.
    destruct entries as [|e0 [|e1 [|e2 entries]]]; try discriminate Hlen.
    injection H0 as ->. injection H1 as ->. exact He.
Defined.

(** ** Field extraction in the interactive loop *)

Lemma result_bind_Ok {A B} (m : result A) (f : A → result B) b :
  m ≫= f = Ok b → ∃ a, m = Ok a ∧ f a = Ok b.
Proof. destruct m as [a|e]; [by exists a|done]. Qed.

Lemma Py_bind_Ok {A B} (m : Py A) (f : A → Py B) out b :
  m ≫= f = (out, Ok b) →
  ∃ out1 a out2, m = (out1, Ok a) ∧ f a = (out2, Ok b) ∧ out = out1 ++ out2.
Proof.
  destruct m as [out1 [a|e]]; cbn [mbind Py_bind]; [|done].
  destruct (f a) as [out2 r] eqn:E. intros [= <- ->]. by exists out1, a, out2.
Qed.

Lemma kept_or_blank_trans field st1 st2 st3 :
  kept_or_blank field st1 st2 → kept_or_blank field st2 st3 →
  kept_or_blank field st1 st3.
Proof.
  unfold kept_or_blank. intros [H12|?] [H23|H23]; auto.
  - left. congruence.
  - right. by rewrite <- H12.
Qed.

Lemma assigns_blank_only_refl st : assigns_blank_only st st.
Proof. by repeat split; left. Qed.

Lemma assigns_blank_only_trans st1 st2 st3 :
  assigns_blank_only st1 st2 → assigns_blank_only st2 st3 →
  assigns_blank_only st1 st3.
Proof.
  intros (?&?&?&?) (?&?&?&?). repeat split; by eapply kept_or_blank_trans.
Qed.

Lemma falsy_blank v : truthy v = false → blank (Some v).
Proof. intros H. by apply truthy_get_false. Qed.

(** One check: unfold it, split on the key, the guard and the keyword search. *)
Ltac check_cases check field Hstep :=
  unfold check in Hstep;
  destruct field as [current|] eqn:Hfield; [|discriminate Hstep];
  cbn [subscript mbind result_bind] in Hstep;
  destruct (truthy current) eqn:Htruthy; cbn [negb andb] in Hstep;
  [injection Hstep as <-; apply assigns_blank_only_refl|];
  match type of Hstep with
  | (if ?guard then _ else _) = _ => destruct guard
  end;
  [|injection Hstep as <-; apply assigns_blank_only_refl];
  apply result_bind_Ok in Hstep as (v & _ & Hstep);
  injection Hstep as <-.

Lemma extract_industry_blank_only user_input st st' :
  extract_industry user_input st = Ok st' → assigns_blank_only st st'.
Proof.
  intros Hstep. check_cases extract_industry (industry st) Hstep.
  repeat split; try (by left). right. rewrite Hfield. by apply falsy_blank.
Qed.

Lemma extract_contract_type_blank_only user_input st st' :
  extract_contract_type user_input st = Ok st' → assigns_blank_only st st'.
Proof.
  intros Hstep. check_cases extract_contract_type (contract_type st) Hstep.
  repeat split; try (by left). right. rewrite Hfield. by apply falsy_blank.
Qed.

Lemma extract_location_blank_only user_input st st' :
  extract_location user_input st = Ok st' → assigns_blank_only st st'.
Proof.
  intros Hstep. check_cases extract_location (location st) Hstep.
  repeat split; try (by left). right. rewrite Hfield. by apply falsy_blank.
Qed.

Lemma extract_budget_range_blank_only user_input st st' :
  extract_budget_range user_input st = Ok st' → assigns_blank_only st st'.
Proof.
  intros Hstep. check_cases extract_budget_range (budget_range st) Hstep.
  repeat split; try (by left). right. rewrite Hfield. by apply falsy_blank.
Qed.

Lemma extract_details_blank_only user_input st st' :
  extract_details user_input st = Ok st' → assigns_blank_only st st'.
Proof.
  unfold extract_details. intros H.
  apply result_bind_Ok in H as (st1 & H1 & H).
  apply result_bind_Ok in H as (st2 & H2 & H).
  apply result_bind_Ok in H as (st3 & H3 & H4).
  eapply assigns_blank_only_trans; [by eapply extract_industry_blank_only|].
  eapply assigns_blank_only_trans; [by eapply extract_contract_type_blank_only|].
  eapply assigns_blank_only_trans; [by eapply extract_location_blank_only|].
  by eapply extract_budget_range_blank_only.
Qed.

(** *** Bound keys *)

Lemma keys_bound_initial_state : keys_bound initial_state.
Proof. by repeat split. Qed.

Ltac check_total check field :=
  unfold check;
  destruct field as [current|] eqn:Hfield;
    [|match goal with H : is_Some None |- _ => by destruct H end];
  cbn [subscript mbind result_bind];
  match goal with
  | |- context [after_keyword ?k ?u] =>
      destruct (after_keyword_ok k u) as [v ->]; [done|]
  end;
  match goal with
  | |- context [if ?guard then _ else _] => destruct guard
  end;
  eexists; (split; [reflexivity|]).

Lemma extract_industry_total user_input st :
  keys_bound st → ∃ st', extract_industry user_input st = Ok st' ∧ keys_bound st'.
Proof.
  intros (Hm & Hi & Hc & Hl & Hb). check_total extract_industry (industry st);
    repeat split; try done; by rewrite ?Hfield.
Qed.

Lemma extract_contract_type_total user_input st :
  keys_bound st →
  ∃ st', extract_contract_type user_input st = Ok st' ∧ keys_bound st'.
Proof.
  intros (Hm & Hi & Hc & Hl & Hb).
  check_total extract_contract_type (contract_type st);
    repeat split; try done; by rewrite ?Hfield.
Qed.

Lemma extract_location_total user_input st :
  keys_bound st → ∃ st', extract_location user_input st = Ok st' ∧ keys_bound st'.
Proof.
  intros (Hm & Hi & Hc & Hl & Hb). check_total extract_location (location st);
    repeat split; try done; by rewrite ?Hfield.
Qed.

Lemma extract_budget_range_total user_input st :
  keys_bound st →
  ∃ st', extract_budget_range user_input st = Ok st' ∧ keys_bound st'.
Proof.
  intros (Hm & Hi & Hc & Hl & Hb).
  check_total extract_budget_range (budget_range st);
    repeat split; try done; by rewrite ?Hfield.
Qed.

Lemma extract_details_total user_input st :
  keys_bound st → ∃ st', extract_details user_input st = Ok st' ∧ keys_bound st'.
Proof.
  intros H. unfold extract_details.
  destruct (extract_industry_total user_input st H) as (st1 & -> & H1).
  destruct (extract_contract_type_total user_input st1 H1) as (st2 & E2 & H2).
  destruct (extract_location_total user_input st2 H2) as (st3 & E3 & H3).
  cbn [mbind result_bind]. rewrite E2. cbn [mbind result_bind]. rewrite E3.
  by apply extract_budget_range_total.
Qed.

Section Session.

Variable search_tool : string → result (list RawResult).

Lemma stream_loop_S fuel n channels user_input st :
  stream_loop search_tool (S fuel) n channels user_input st
  = (update ← run_node search_tool n channels;
     st ← handle_event user_input update st;
     let channels := apply_update channels update in
     next ← lift (next_node n channels);
     match next with
     | Some n' => stream_loop search_tool fuel n' channels user_input st
     | None => mret st
     end).
Proof. reflexivity. Qed.

(** After the gathering node the last message is the assistant's, so the
    conditional edge leads to the search node. *)
Lemma route_after_gathering channels :
  next_node input_gathering (apply_update channels (gather_contract_details channels))
  = Ok (Some contract_search).
Proof.
  unfold next_node. rewrite gather_contract_details_cases, route_to_search_cases.
  set (reply := AIMessage _).
  change (default [] (messages (apply_update channels (messages_only [reply]))))
    with (default [] (messages channels) ++ [reply]).
  rewrite last_snoc. cbn [from_option is_HumanMessage reply].
  rewrite andb_false_r. reflexivity.
Qed.

Lemma handle_event_blank_only user_input value st out st' :
  handle_event user_input value st = (out, Ok st') → assigns_blank_only st st'.
Proof.
  unfold handle_event. destruct (messages value) as [ms|].
  - intros H. apply Py_bind_Ok in H as (o1 & m & o2 & _ & H & _).
    apply Py_bind_Ok in H as (o3 & [] & o4 & _ & H & _).
    injection H as _ H. by eapply extract_details_blank_only.
  - intros [= _ <-]. apply assigns_blank_only_refl.
Qed.

Lemma stream_loop_blank_only fuel n channels user_input st out st' :
  stream_loop search_tool fuel n channels user_input st = (out, Ok st') →
  assigns_blank_only st st'.
Proof.
  revert n channels st out. induction fuel as [|fuel IH]; intros n channels st out;
    [done|].
  rewrite stream_loop_S. intros H.
  apply Py_bind_Ok in H as (o1 & update & o2 & _ & H & _).
  apply Py_bind_Ok in H as (o3 & st1 & o4 & H1 & H & _).
  apply handle_event_blank_only in H1. cbv zeta in H.
  apply Py_bind_Ok in H as (o5 & next & o6 & _ & H & _).
  eapply assigns_blank_only_trans; [exact H1|].
  destruct next as [n'|].
  - by eapply IH.
  - injection H as _ <-. apply assigns_blank_only_refl.
Qed.

Lemma turn_blank_only user_input st out st' :
  turn search_tool user_input st = (out, Ok st') → assigns_blank_only st st'.
Proof.
  unfold turn. intros H.
  apply Py_bind_Ok in H as (o1 & ms & o2 & _ & H & _).
  apply stream_loop_blank_only in H. exact H.
Qed.

End Session.

Lemma filled_not_blank field : filled field → ¬ blank field.
Proof.
  intros (c & s & ->) [[H|H]|H]; discriminate.
Qed.

Lemma kept_or_blank_never_reassigned field st st' :
  kept_or_blank field st st' → never_reassigned field st st'.
Proof.
  intros [H|H]; split; try done.
  intros Hf. by apply filled_not_blank in Hf.
Qed.

(** C8, counterexample: the first turn, with input "industry", sets industry
    by a keyword match, to the empty string; the second turn, whose input
    "industry IT" contains the same keyword, changes it to "IT". *)
Lemma set_field_reassigned_counterexample :
  outcome (turn (λ _, Ok []) "industry" initial_state) = Ok state_after_industry
  ∧ industry state_after_industry = Some (PyStr "")
  ∧ ¬ unset (industry state_after_industry)
  ∧ outcome (turn (λ _, Ok []) "industry IT" state_after_industry)
    = Ok state_after_industry_IT
  ∧ industry state_after_industry_IT = Some (PyStr "IT")
  ∧ industry state_after_industry_IT ≠ industry state_after_industry.
Proof.
  repeat split; try done. intros [H|H]; discriminate.
Qed.

(** C8, amended: once one of the four fields holds a non-empty string, no
    later turn changes it, whatever the inputs contain; the extraction checks
    only assign to a field that is [None] or the empty string. *)
Theorem filled_fields_never_change
    (search_tool : string → result (list RawResult)) (st st' : ContractState) :
  rtc (turn_step search_tool) st st' →
  never_reassigned industry st st' ∧ never_reassigned contract_type st st'
  ∧ never_reassigned location st st' ∧ never_reassigned budget_range st st'.
Proof.
  intros Hsteps.
  assert (H : assigns_blank_only st st').
  { induction Hsteps as [st|st1 st2 st3 (user_input & out & E) _ IH].
    - apply assigns_blank_only_refl.
    - eapply assigns_blank_only_trans; [|exact IH]. by eapply turn_blank_only. }
  destruct H as (?&?&?&?). repeat split; by apply kept_or_blank_never_reassigned.
Qed.

Lemma filled_fields_never_change_witness :
  turn_step (λ _, Ok []) state_after_industry state_after_industry_IT
  ∧ location state_after_industry_IT = Some (PyStr "industry").
Proof.
  assert (Hstep : turn_step (λ _, Ok []) state_after_industry state_after_industry_IT).
  { exists "industry IT",
      (console (turn (λ _, Ok []) "industry IT" state_after_industry)).
    reflexivity. }
  split; [exact Hstep|].
  destruct (filled_fields_never_change (λ _, Ok []) state_after_industry
              state_after_industry_IT (rtc_once _ _ Hstep)) as (_ & _ & [Hloc _] & _).
  rewrite Hloc; [reflexivity|]. by exists "i"%char, "ndustry".
Defined.

(** * Further properties of the code *)


(** ** One pass of the checks is enough *)

Section KeywordCheck.

Variable key : string.
Variable field : ContractState → option pyopt.
Variable assign : pyopt → ContractState → ContractState.
Variable guard : bool.
Variables keyword user_input : string.

Hypothesis field_assign : ∀ v st, field (assign v st) = Some v.
Hypothesis assign_same : ∀ v st, field st = Some v → assign v st = st.

Lemma keyword_check_shape st st' :
  keyword_check key field assign guard keyword user_input st = Ok st' →
  st' = st ∨ ∃ v, st' = assign (PyStr v) st.
Proof.
  unfold keyword_check. destruct (field st) as [current|]; [|done].
  cbn [subscript mbind result_bind].
  destruct (negb (truthy current) && guard).
  - intros (v & _ & [= <-])%result_bind_Ok. right. by exists v.
  - intros [= <-]. by left.
Qed.

(** A second run of the check on its own result changes nothing. *)
Lemma keyword_check_idempotent st st' :
  keyword_check key field assign guard keyword user_input st = Ok st' →
  keyword_check key field assign guard keyword user_input st' = Ok st'.
Proof.
  unfold keyword_check. destruct (field st) as [current|] eqn:Hfield; [|done].
  cbn [subscript mbind result_bind].
  destruct (negb (truthy current) && guard) eqn:Hcond.
  - intros (v & Hv & [= <-])%result_bind_Ok.
    rewrite field_assign. cbn [subscript mbind result_bind].
    destruct (negb (truthy (PyStr v)) && guard); [|done].
    rewrite Hv. cbn [mbind result_bind mret result_ret].
    by rewrite assign_same.
  - intros [= <-]. rewrite Hfield. cbn [subscript mbind result_bind].
    by rewrite Hcond.
Qed.

(** A dictionary the check leaves alone stays settled when other keys
    change. *)
Lemma keyword_check_settled st st2 :
  keyword_check key field assign guard keyword user_input st = Ok st →
  field st2 = field st →
  keyword_check key field assign guard keyword user_input st2 = Ok st2.
Proof.
  unfold keyword_check. intros H Hsame. rewrite Hsame.
  destruct (field st) as [current|] eqn:Hfield; [|done].
  cbn [subscript mbind result_bind] in *.
  destruct (negb (truthy current) && guard); [|done].
  apply result_bind_Ok in H as (v & Hv & [= Hst]). rewrite Hv.
  cbn [mbind result_bind mret result_ret]. f_equal.
  apply assign_same. rewrite Hsame, <- Hfield, <- Hst at 1. by rewrite field_assign.
Qed.

End KeywordCheck.

Lemma extract_industry_keyword_check user_input :
  extract_industry user_input
  = keyword_check "industry" industry with_industry
      (PyStr.contains "industry" (PyStr.lower user_input)) "industry" user_input.
Proof. reflexivity. Qed.

Lemma extract_contract_type_keyword_check user_input :
  extract_contract_type user_input
  = keyword_check "contract_type" contract_type with_contract_type
      (PyStr.contains "contract type" (PyStr.lower user_input)) "contract type"
      user_input.
Proof. reflexivity. Qed.

Lemma extract_location_keyword_check user_input :
  extract_location user_input
  = keyword_check "location" location with_location
      (existsb (λ loc, PyStr.contains loc (PyStr.lower user_input)) ["in"; "location"])
      "location" user_input.
Proof. reflexivity. Qed.

Lemma extract_budget_range_keyword_check user_input :
  extract_budget_range user_input
  = keyword_check "budget_range" budget_range with_budget_range
      (PyStr.contains "budget" (PyStr.lower user_input)) "budget" user_input.
Proof. reflexivity. Qed.

Lemma with_industry_same v st : industry st = Some v → with_industry v st = st.
Proof. destruct st. cbn. by intros ->. Qed.
Lemma with_contract_type_same v st :
  contract_type st = Some v → with_contract_type v st = st.
Proof. destruct st. cbn. by intros ->. Qed.
Lemma with_location_same v st : location st = Some v → with_location v st = st.
Proof. destruct st. cbn. by intros ->. Qed.
Lemma with_budget_range_same v st :
  budget_range st = Some v → with_budget_range v st = st.
Proof. destruct st. cbn. by intros ->. Qed.

(** The four checks as one list of steps between dictionaries. *)
Lemma extract_details_steps user_input st st' :
  extract_details user_input st = Ok st' ↔
  ∃ st1 st2 st3,
    extract_industry user_input st = Ok st1
    ∧ extract_contract_type user_input st1 = Ok st2
    ∧ extract_location user_input st2 = Ok st3
    ∧ extract_budget_range user_input st3 = Ok st'.
Proof.
  unfold extract_details. split.
  - intros H.
    apply result_bind_Ok in H as (st1 & H1 & H).
    apply result_bind_Ok in H as (st2 & H2 & H).
    apply result_bind_Ok in H as (st3 & H3 & H4).
    by exists st1, st2, st3.
  - intros (st1 & st2 & st3 & -> & H2 & H3 & H4). cbn [mbind result_bind].
    rewrite H2. cbn [mbind result_bind]. by rewrite H3.
Qed.

(** What each check leaves alone. *)
Ltac frame_by shape H :=
  apply shape in H as [->|[v ->]]; by repeat split.

Lemma extract_industry_frame user_input st st' :
  extract_industry user_input st = Ok st' →
  messages st' = messages st ∧ contract_type st' = contract_type st
  ∧ location st' = location st ∧ budget_range st' = budget_range st.
Proof.
  rewrite extract_industry_keyword_check. intros H.
  frame_by keyword_check_shape H.
Qed.

Lemma extract_contract_type_frame user_input st st' :
  extract_contract_type user_input st = Ok st' →
  messages st' = messages st ∧ industry st' = industry st
  ∧ location st' = location st ∧ budget_range st' = budget_range st.
Proof.
  rewrite extract_contract_type_keyword_check. intros H.
  frame_by keyword_check_shape H.
Qed.

Lemma extract_location_frame user_input st st' :
  extract_location user_input st = Ok st' →
  messages st' = messages st ∧ industry st' = industry st
  ∧ contract_type st' = contract_type st ∧ budget_range st' = budget_range st.
Proof.
  rewrite extract_location_keyword_check. intros H.
  frame_by keyword_check_shape H.
Qed.

Lemma extract_budget_range_frame user_input st st' :
  extract_budget_range user_input st = Ok st' →
  messages st' = messages st ∧ industry st' = industry st
  ∧ contract_type st' = contract_type st ∧ location st' = location st.
Proof.
  rewrite extract_budget_range_keyword_check. intros H.
  frame_by keyword_check_shape H.
Qed.

Lemma extract_details_messages user_input st st' :
  extract_details user_input st = Ok st' → messages st' = messages st.
Proof.
  intros (st1 & st2 & st3 & H1 & H2 & H3 & H4)%extract_details_steps.
  apply extract_industry_frame in H1 as (E1 & _).
  apply extract_contract_type_frame in H2 as (E2 & _).
  apply extract_location_frame in H3 as (E3 & _).
  apply extract_budget_range_frame in H4 as (E4 & _). congruence.
Qed.

Lemma extract_details_settles user_input st st' :
  extract_details user_input st = Ok st' →
  extract_details user_input st' = Ok st'.
Proof.
  intros (st1 & st2 & st3 & H1 & H2 & H3 & H4)%extract_details_steps.
  pose proof (extract_contract_type_frame _ _ _ H2) as (_ & Hi2 & Hl2 & _).
  pose proof (extract_location_frame _ _ _ H3) as (_ & Hi3 & Hc3 & _).
  pose proof (extract_budget_range_frame _ _ _ H4) as (_ & Hi4 & Hc4 & Hl4).
  rewrite extract_industry_keyword_check in H1.
  rewrite extract_contract_type_keyword_check in H2.
  rewrite extract_location_keyword_check in H3.
  rewrite extract_budget_range_keyword_check in H4.
  apply keyword_check_idempotent in H1, H2, H3, H4;
    try done; try (intros; by apply with_industry_same);
    try (intros; by apply with_contract_type_same);
    try (intros; by apply with_location_same);
    try (intros; by apply with_budget_range_same).
  apply extract_details_steps. exists st', st', st'.
  rewrite extract_industry_keyword_check, extract_contract_type_keyword_check,
    extract_location_keyword_check, extract_budget_range_keyword_check.
  split; [|split; [|split]]; try done.
  - apply keyword_check_settled with (st := st1);
      [done|apply with_industry_same|exact H1|congruence].
  - apply keyword_check_settled with (st := st2);
      [done|apply with_contract_type_same|exact H2|congruence].
  - apply keyword_check_settled with (st := st3);
      [done|apply with_location_same|exact H3|congruence].
Qed.

(** ** A turn, spelled out *)

Lemma Py_ret_bind {A B} (a : A) (f : A → Py B) : mret a ≫= f = f a.
Proof. cbn [mret Py_ret mbind Py_bind]. by destruct (f a). Qed.

Lemma Py_lift_Ok_bind {A B} (a : A) (f : A → Py B) : lift (Ok a) ≫= f = f a.
Proof. apply Py_ret_bind. Qed.

Lemma Py_bind_ret {A} (m : Py A) : m ≫= mret = m.
Proof.
  destruct m as [out [a|e]]; cbn [mret Py_ret mbind Py_bind]; [|done].
  by rewrite app_nil_r.
Qed.

Lemma Py_bind_ext {A B} (m : Py A) (f g : A → Py B) :
  (∀ a, f a = g a) → m ≫= f = m ≫= g.
Proof.
  intros H. destruct m as [out [a|e]]; cbn [mbind Py_bind]; [|done].
  by rewrite H.
Qed.

Lemma last_value_None {A} (new : option A) : last_value None new = new.
Proof. by destruct new. Qed.

(** The two nodes read the scalar fields only. *)
Lemma gather_contract_details_fields st st' :
  industry st' = industry st → contract_type st' = contract_type st →
  location st' = location st →
  gather_contract_details st' = gather_contract_details st.
Proof. unfold gather_contract_details. by intros -> -> ->. Qed.

Lemma search_query_fields st st' :
  industry st' = industry st → contract_type st' = contract_type st →
  location st' = location st → budget_range st' = budget_range st →
  search_query st' = search_query st.
Proof. unfold search_query. by intros -> -> -> ->. Qed.

Section Turn.

Variable search_tool : string → result (list RawResult).

Lemma search_contracts_query st st' :
  search_query st' = search_query st →
  search_contracts search_tool st' = search_contracts search_tool st.
Proof. unfold search_contracts, safe_search_contracts. by intros ->. Qed.

(** One turn: the user message is appended, the gathering reply is handled,
    the search runs on the fields as they were when the turn began, and its
    reply is handled. *)
Lemma turn_unfold user_input st ms :
  messages st = Some ms →
  turn search_tool user_input st
  = (st2 ← handle_event user_input (gather_contract_details st)
             (with_messages (ms ++ [HumanMessage user_input]) st);
     update ← search_contracts search_tool st;
     handle_event user_input update st2).
Proof.
  intros Hms. unfold turn. rewrite Hms. cbn [subscript].
  rewrite Py_lift_Ok_bind. change recursion_limit with (S (S 23)).
  set (st1 := with_messages _ st). set (channels := apply_update empty_channels st1).
  assert (Hi : industry channels = industry st) by apply last_value_None.
  assert (Hc : contract_type channels = contract_type st) by apply last_value_None.
  assert (Hl : location channels = location st) by apply last_value_None.
  assert (Hb : budget_range channels = budget_range st) by apply last_value_None.
  rewrite <- (gather_contract_details_fields st channels Hi Hc Hl).
  rewrite <- (search_contracts_query st
                (apply_update channels (gather_contract_details channels)))
    by (rewrite gather_contract_details_cases; by apply search_query_fields).
  rewrite stream_loop_S. cbn [run_node]. rewrite Py_ret_bind.
  apply Py_bind_ext. intros st2. cbv zeta.
  rewrite route_after_gathering, Py_lift_Ok_bind, stream_loop_S. cbn [run_node].
  apply Py_bind_ext. intros update. cbv zeta. cbn [next_node].
  etransitivity; [|apply Py_bind_ret].
  apply Py_bind_ext. intros st3. by rewrite Py_lift_Ok_bind.
Qed.

End Turn.

Lemma handle_event_reply user_input text st :
  handle_event user_input (messages_only [AIMessage text]) st
  = (["
Assistant: " +:+ text], extract_details user_input st).
Proof.
  unfold handle_event. cbn [messages messages_only last_item last].
  rewrite Py_lift_Ok_bind. cbn [is_AIMessage message_content].
  unfold print, lift. cbn [mbind Py_bind]. reflexivity.
Qed.

Section TurnFacts.

Variable search_tool : string → result (list RawResult).

Lemma turn_outcome user_input st ms :
  messages st = Some ms →
  no_base_exception (search_tool (search_query st)) →
  outcome (turn search_tool user_input st)
  = extract_details user_input (with_messages (ms ++ [HumanMessage user_input]) st).
Proof.
  intros Hms Hno. rewrite (turn_unfold _ _ _ _ Hms), gather_contract_details_cases.
  rewrite handle_event_reply.
  destruct (extract_details _ (with_messages _ st)) as [st2|e] eqn:E; [|done].
  cbn [mbind Py_bind].
  destruct (search_contracts_total search_tool st Hno) as (out & ? & -> & text & ->).
  cbn [mbind Py_bind]. rewrite handle_event_reply.
  by rewrite (extract_details_settles _ _ _ E).
Qed.

Lemma turn_result user_input st :
  keys_bound st →
  no_base_exception (search_tool (search_query st)) →
  ∃ out st' ms,
    turn search_tool user_input st = (out, Ok st')
    ∧ keys_bound st'
    ∧ messages st = Some ms
    ∧ messages st' = Some (ms ++ [HumanMessage user_input]).
Proof.
  intros Hkeys Hno. destruct (Hkeys) as ([ms Hms] & Hrest).
  pose proof (turn_outcome user_input st ms Hms Hno) as Hout.
  destruct (extract_details_total user_input
              (with_messages (ms ++ [HumanMessage user_input]) st))
    as (st' & E & Hkeys'); [by split|].
  rewrite E in Hout. destruct (turn _ _ _) as [out r]. cbn in Hout. subst r.
  exists out, st', ms. repeat split; try done; try apply Hkeys'.
  by rewrite (extract_details_messages _ _ _ E).
Qed.

(** An exception outside Exception raised by the tool leaves the turn, after
    the gathering reply has been printed. *)
Lemma turn_interrupted user_input st cls msg :
  keys_bound st →
  search_tool (search_query st) = Raise (BaseExn cls msg) →
  ∃ out, turn search_tool user_input st = (out, Raise (BaseExn cls msg)).
Proof.
  intros Hkeys Hbase. destruct (Hkeys) as ([ms Hms] & Hrest).
  rewrite (turn_unfold _ _ _ _ Hms), gather_contract_details_cases.
  rewrite handle_event_reply.
  destruct (extract_details_total user_input
              (with_messages (ms ++ [HumanMessage user_input]) st))
    as (st2 & -> & _); [by split|].
  cbn [mbind Py_bind]. rewrite (search_contracts_base _ _ _ _ Hbase).
  cbn [mbind Py_bind]. by eexists.
Qed.

(** The four ways one iteration of the loop can go. *)
Lemma main_loop_exit user_input inputs st :
  is_exit user_input = true →
  main_loop search_tool (user_input :: inputs) st
  = (["
User: "; "Goodbye! Hope you found some great contract opportunities."], Ok tt).
Proof. intros H. cbn [main_loop]. unfold iteration. by rewrite H. Qed.

Lemma main_loop_turn_ok user_input inputs st out st' :
  is_exit user_input = false →
  turn search_tool user_input st = (out, Ok st') →
  main_loop search_tool (user_input :: inputs) st
  = ("
User: " :: out ++ console (main_loop search_tool inputs st'),
     outcome (main_loop search_tool inputs st')).
Proof.
  intros H E. cbn [main_loop]. unfold iteration. rewrite H, E.
  cbn [mbind Py_bind try_except mret Py_ret print].
  destruct (main_loop search_tool inputs st') as [out' r].
  cbn [console outcome fst snd]. by rewrite app_nil_r.
Qed.

Lemma main_loop_turn_caught user_input inputs st out cls msg :
  is_exit user_input = false →
  turn search_tool user_input st = (out, Raise (Exn cls msg)) →
  main_loop search_tool (user_input :: inputs) st
  = ("
User: " :: out ++ ["An error occurred: " +:+ msg], Ok tt).
Proof.
  intros H E. cbn [main_loop]. unfold iteration. rewrite H, E.
  cbn [mbind Py_bind try_except is_Exception report_and_break str_exn mret Py_ret
         print].
  by rewrite !app_nil_r.
Qed.

Lemma main_loop_turn_passed user_input inputs st out cls msg :
  is_exit user_input = false →
  turn search_tool user_input st = (out, Raise (BaseExn cls msg)) →
  main_loop search_tool (user_input :: inputs) st
  = ("
User: " :: out, Raise (BaseExn cls msg)).
Proof.
  intros H E. cbn [main_loop]. unfold iteration. rewrite H, E.
  by cbn [mbind Py_bind try_except is_Exception print].
Qed.

Lemma main_loop_last inputs st :
  keys_bound st →
  (∀ query, no_base_exception (search_tool query)) →
  outcome (main_loop search_tool inputs st) = Ok tt
  ∧ last (console (main_loop search_tool inputs st))
    = Some (if existsb is_exit inputs
            then "Goodbye! Hope you found some great contract opportunities."
            else "An error occurred: EOF when reading a line").
Proof.
  intros Hkeys Hno. revert st Hkeys.
  induction inputs as [|user_input inputs IH]; intros st Hkeys; [done|].
  cbn [existsb]. destruct (is_exit user_input) eqn:Hexit.
  - by rewrite main_loop_exit.
  - destruct (turn_result user_input st Hkeys (Hno _))
      as (out & st' & ms & E & Hkeys' & _).
    rewrite (main_loop_turn_ok _ _ _ _ _ Hexit E). cbn [console outcome fst snd orb].
    destruct (IH st' Hkeys') as [Hout Hlast]. split; [done|].
    by rewrite last_cons, last_app, Hlast.
Qed.

Lemma main_loop_after_exit before user_input rest st :
  is_exit user_input = true →
  main_loop search_tool (before ++ user_input :: rest) st
  = main_loop search_tool (before ++ [user_input]) st.
Proof.
  intros Hexit. revert st. induction before as [|a before IH]; intros st.
  - cbn [app]. by rewrite !main_loop_exit.
  - cbn [app main_loop]. apply Py_bind_ext. intros _.
    apply Py_bind_ext. intros [st'|]; [apply IH|done].
Qed.

End TurnFacts.

(** ** The interactive loop, turn by turn *)

(** X1: when the search tool does not raise an exception outside Exception,
    the dictionary a turn leaves behind is what one pass of the four checks
    gives on the dictionary with the user message appended; it is the same for
    every such tool, so neither the graph run nor the search results feed into
    it; and its messages are the former ones followed by the input as one user
    message. *)
Theorem turn_is_one_extraction_pass
    (search_tool : string → result (list RawResult))
    (user_input : string) (st : ContractState) (ms : list Message) :
  messages st = Some ms →
  no_base_exception (search_tool (search_query st)) →
  outcome (turn search_tool user_input st)
  = extract_details user_input (with_messages (ms ++ [HumanMessage user_input]) st)
  ∧ (∀ other_tool,
       no_base_exception (other_tool (search_query st)) →
       outcome (turn other_tool user_input st)
       = outcome (turn search_tool user_input st))
  ∧ (∀ st',
       outcome (turn search_tool user_input st) = Ok st' →
       messages st' = Some (ms ++ [HumanMessage user_input])).
Proof.
  intros Hms Hno. split; [by apply turn_outcome|]. split.
  - intros other_tool Hother. by rewrite !(turn_outcome _ _ _ ms Hms).
  - intros st'. rewrite (turn_outcome _ _ _ ms Hms Hno).
    by intros ->%extract_details_messages.
Qed.

Lemma turn_is_one_extraction_pass_witness :
  outcome (turn failing_tool "industry IT" initial_state) = Ok state_industry_IT.
Proof.
  rewrite (proj1 (turn_is_one_extraction_pass failing_tool "industry IT"
                    initial_state [] eq_refl (λ cls msg, ltac:(discriminate)))).
  reflexivity.
Defined.

(** X2: on a dictionary with all keys bound, and with a search tool that does
    not raise an exception outside Exception, a turn writes exactly two
    assistant replies: the gathering reply chosen by the fields as they were
    when the turn began (the acknowledgment when the three required fields
    hold non-empty strings, the clarification prompt otherwise), then the
    reply of the search, which runs on those same fields whether or not
    required ones are missing; between the two stands whatever the search step
    logged. *)
Theorem turn_prints_two_replies
    (search_tool : string → result (list RawResult))
    (user_input : string) (st : ContractState) :
  keys_bound st →
  no_base_exception (search_tool (search_query st)) →
  ∃ reply answer,
    console (turn search_tool user_input st)
    = ["
Assistant: " +:+ reply]
      ++ console (search_contracts search_tool st)
      ++ ["
Assistant: " +:+ answer]
    ∧ outcome (search_contracts search_tool st)
      = Ok (mkState (Some [AIMessage answer]) None None None None)
    ∧ (filled (industry st) ∧ filled (contract_type st) ∧ filled (location st) →
       reply = "Great! I'll search for contract opportunities based on your details.")
    ∧ (blank (industry st) ∨ blank (contract_type st) ∨ blank (location st) →
       reply = "I'll help you find contract opportunities. Could you please provide more details:
1. What industry are you looking for contracts in? (e.g., IT, Construction, Marketing)
2. What type of contract are you seeking? (e.g., Full-time, Part-time, Project-based)
3. In which location are you looking for contracts?
4. Do you have a specific budget range in mind?").
Proof.
  intros Hkeys Hno. destruct (Hkeys) as ([ms Hms] & Hrest).
  rewrite (turn_unfold _ _ _ _ Hms), gather_contract_details_cases.
  rewrite handle_event_reply.
  destruct (extract_details_total user_input
              (with_messages (ms ++ [HumanMessage user_input]) st))
    as (st2 & -> & _); [by split|].
  cbn [mbind Py_bind].
  destruct (search_contracts_total search_tool st Hno) as (out & ? & -> & text & ->).
  eexists _, text. split; [|split; [done|split]].
  - cbn [mbind Py_bind]. rewrite handle_event_reply. reflexivity.
  - intros (Hi & Hc & Hl). apply truthy_get_true in Hi, Hc, Hl.
    unfold all. cbn [forallb]. by rewrite Hi, Hc, Hl.
  - intros H%not_all_required. by rewrite H.
Qed.

Lemma turn_prints_two_replies_witness :
  console (turn failing_tool "hello" initial_state)
  = ["
Assistant: I'll help you find contract opportunities. Could you please provide more details:
1. What industry are you looking for contracts in? (e.g., IT, Construction, Marketing)
2. What type of contract are you seeking? (e.g., Full-time, Part-time, Project-based)
3. In which location are you looking for contracts?
4. Do you have a specific budget range in mind?";
     "Error in contract search: timed out";
     "
Assistant: I'm sorry, but I couldn't find any contract opportunities matching your criteria. Would you like to modify your search parameters?"].
Proof.
  destruct (turn_prints_two_replies failing_tool "hello" initial_state
              keys_bound_initial_state (λ cls msg, ltac:(discriminate)))
    as (reply & answer & -> & Hanswer & _ & Hreply).
  injection Hanswer as <-. rewrite Hreply; [reflexivity|].
  left. left. right. reflexivity.
Defined.

(** X3: from a dictionary with all keys bound, a turn raises only what the
    search tool raises outside Exception (KeyboardInterrupt, SystemExit),
    whatever the input: with a tool that returns hits or raises an exception
    derived from Exception, the turn ends normally, appends the input as one
    user message to the dictionary's messages, stores no assistant reply there
    and leaves all keys bound; with a tool that raises outside Exception, the
    turn raises that very exception. *)
Theorem turn_raises_only_outside_Exception
    (search_tool : string → result (list RawResult))
    (user_input : string) (st : ContractState) :
  keys_bound st →
  (no_base_exception (search_tool (search_query st)) →
   ∃ out st' ms,
     turn search_tool user_input st = (out, Ok st')
     ∧ keys_bound st'
     ∧ messages st = Some ms
     ∧ messages st' = Some (ms ++ [HumanMessage user_input]))
  ∧ (∀ cls msg,
       search_tool (search_query st) = Raise (BaseExn cls msg) →
       ∃ out, turn search_tool user_input st = (out, Raise (BaseExn cls msg))).
Proof.
  intros Hkeys. split.
  - by apply turn_result.
  - intros cls msg. by apply turn_interrupted.
Qed.

Lemma turn_raises_only_outside_Exception_witness :
  (∃ out st',
     turn failing_tool "industry IT" initial_state = (out, Ok st')
     ∧ messages st' = Some [HumanMessage "industry IT"])
  ∧ ∃ out,
      turn interrupted_tool "industry IT" initial_state
      = (out, Raise (BaseExn "KeyboardInterrupt" "")).
Proof.
  split.
  - destruct (proj1 (turn_raises_only_outside_Exception failing_tool "industry IT"
                       initial_state keys_bound_initial_state)
                (λ cls msg, ltac:(discriminate)))
      as (out & st' & ms & E & _ & [= <-] & Hms).
    by exists out, st'.
  - exact (proj2 (turn_raises_only_outside_Exception interrupted_tool "industry IT"
                    initial_state keys_bound_initial_state)
             "KeyboardInterrupt" "" eq_refl).
Defined.

(** X4: with a search tool that never raises an exception outside Exception,
    a session returns normally and ends in one of two ways only: with the
    farewell when one of the lines typed is an exit word, and otherwise, when
    the input runs out, with the end-of-input error; no turn ends it with
    another error. *)
Theorem session_last_line
    (search_tool : string → result (list RawResult)) (inputs : list string) :
  (∀ query, no_base_exception (search_tool query)) →
  outcome (run_contract_finder search_tool inputs) = Ok tt
  ∧ last (console (run_contract_finder search_tool inputs))
    = Some (if existsb is_exit inputs
            then "Goodbye! Hope you found some great contract opportunities."
            else "An error occurred: EOF when reading a line").
Proof.
  intros Hno.
  destruct (main_loop_last search_tool inputs initial_state
              keys_bound_initial_state Hno) as [Hout Hlast].
  unfold run_contract_finder, print. cbn [mbind Py_bind].
  destruct (main_loop search_tool inputs initial_state) as [out r].
  cbn [console outcome fst snd] in *. split; [done|].
  cbn [app]. by rewrite !last_cons, Hlast.
Qed.

Lemma session_last_line_witness :
  last (console (run_contract_finder failing_tool ["hello"; "industry IT"]))
  = Some "An error occurred: EOF when reading a line"
  ∧ last (console (run_contract_finder failing_tool ["hello"; "EXIT"; "more"]))
    = Some "Goodbye! Hope you found some great contract opportunities.".
Proof.
  split.
  - exact (proj2 (session_last_line failing_tool ["hello"; "industry IT"]
                    (λ query cls msg, ltac:(discriminate)))).
  - exact (proj2 (session_last_line failing_tool ["hello"; "EXIT"; "more"]
                    (λ query cls msg, ltac:(discriminate)))).
Defined.

(** X5: nothing typed after an exit word is read: the session writes the same
    with or without the lines that follow it. The exit words are recognised in
    any letter case. *)
Theorem inputs_after_exit_ignored
    (search_tool : string → result (list RawResult))
    (before : list string) (user_input : string) (rest : list string) :
  is_exit user_input = true →
  run_contract_finder search_tool (before ++ user_input :: rest)
  = run_contract_finder search_tool (before ++ [user_input]).
Proof.
  intros Hexit. unfold run_contract_finder. by rewrite main_loop_after_exit.
Qed.

Lemma inputs_after_exit_ignored_witness :
  run_contract_finder failing_tool (["hello"] ++ "Quit" :: ["industry IT"; "more"])
  = run_contract_finder failing_tool (["hello"] ++ ["Quit"]).
Proof.
  apply (inputs_after_exit_ignored failing_tool ["hello"] "Quit"). reflexivity.
Defined.

(** ** What the checks extract *)

(** X6: the text a check extracts for the keyword is the stripped rest of the
    input after an occurrence of the keyword that no further occurrence
    follows; when the input does not contain the keyword in this very spelling
    (the test is made on the lowered input, the split on the input as typed),
    it is the whole input, stripped. *)
Theorem after_keyword_text (keyword user_input : string) :
  keyword ≠ "" →
  ∃ tail,
    after_keyword keyword user_input = Ok (PyStr.strip tail)
    ∧ PyStr.contains keyword tail = false
    ∧ (PyStr.contains keyword user_input = false → tail = user_input)
    ∧ (PyStr.contains keyword user_input = true →
       ∃ before, user_input = before +:+ keyword +:+ tail).
Proof.
  intros Hk. destruct (PyStrMore.split_go_last keyword user_input Hk)
    as (tail & Hlast & Hno & Habsent & Hpresent).
  exists tail. repeat split; try done.
  unfold after_keyword, split, last_item. destruct keyword; [done|].
  cbn [mbind result_bind]. by rewrite Hlast.
Qed.

Lemma after_keyword_text_witness :
  (∃ before tail,
     "the industry I like is the industry of  finance "
     = before +:+ "industry" +:+ tail
     ∧ PyStr.contains "industry" tail = false
     ∧ after_keyword "industry" "the industry I like is the industry of  finance "
       = Ok (PyStr.strip tail))
  ∧ after_keyword "industry" "INDUSTRY: finance" = Ok "INDUSTRY: finance".
Proof.
  split.
  - destruct (after_keyword_text "industry"
                "the industry I like is the industry of  finance ")
      as (tail & Hv & Hno & _ & Hpresent); [done|].
    destruct (Hpresent eq_refl) as [before Hcut]. by exists before, tail.
  - destruct (after_keyword_text "industry" "INDUSTRY: finance")
      as (tail & -> & _ & -> & _); [done|reflexivity|reflexivity].
Defined.

Lemma strip_cut s :
  ∃ left right,
    s = left +:+ PyStr.strip s +:+ right
    ∧ contains_only_spaces left = true
    ∧ contains_only_spaces right = true
    ∧ no_outer_space (PyStr.strip s).
Proof.
  unfold PyStr.strip.
  destruct (PyStrMore.lstrip_spec s) as (left & Hleft & Hsl & Hfirst).
  destruct (PyStrMore.rstrip_spec (PyStr.lstrip s)) as (right & Hright & Hsr & Hlast).
  exists left, right. split; [by rewrite <- Hright|]. split; [done|]. split; [done|].
  split; [|done]. intros c r E.
  destruct (PyStrMore.rstrip_first _ _ _ E) as [r' E']. by apply (Hfirst c r').
Qed.

(** X7: the value a check stores never starts or ends with whitespace, and it
    is a piece of the input as typed: the input is some text, then whitespace,
    then the value, then whitespace up to the end. *)
Theorem after_keyword_stripped (keyword user_input v : string) :
  after_keyword keyword user_input = Ok v →
  no_outer_space v
  ∧ ∃ before left right,
      user_input = before +:+ left +:+ v +:+ right
      ∧ contains_only_spaces left = true
      ∧ contains_only_spaces right = true.
Proof.
  intros H. assert (Hk : keyword ≠ "") by (by intros ->).
  destruct (PyStrMore.split_go_last keyword user_input Hk)
    as (tail & Hlast & _ & Habsent & Hpresent).
  unfold after_keyword, split, last_item in H. destruct keyword as [|a k]; [done|].
  cbn [mbind result_bind] in H. rewrite Hlast in H. injection H as <-.
  destruct (strip_cut tail) as (left & right & Hcut & Hl & Hr & Hv).
  split; [done|].
  destruct (PyStr.contains (String a k) user_input) eqn:E.
  - destruct (Hpresent eq_refl) as [before ->].
    exists (before +:+ String a k), left, right. split; [|by split].
    by rewrite PyStrMore.app_assoc, <- Hcut.
  - specialize (Habsent eq_refl). subst tail. exists "", left, right.
    by repeat split.
Qed.

Lemma after_keyword_stripped_witness :
  no_outer_space "Austin, TX".
Proof.
  exact (proj1 (after_keyword_stripped "location" "my location   Austin, TX  "
                  "Austin, TX" eq_refl)).
Defined.

(** C9: when the lowered input contains "in" but not "location" and the
    dictionary binds location to [None] (or to the empty string), the location
    check binds location to the whole input stripped of surrounding
    whitespace, and changes no other key: the separator "location" does not
    occur in the input, so the split returns the input as its only part. *)
Theorem extract_location_whole_input
    (user_input : string) (st : ContractState) (current : pyopt) :
  PyStr.contains "in" (PyStr.lower user_input) = true →
  PyStr.contains "location" (PyStr.lower user_input) = false →
  location st = Some current →
  truthy current = false →
  ∃ st' v,
    extract_location user_input st = Ok st'
    ∧ location st' = Some (PyStr v)
    ∧ v = PyStr.strip user_input
    ∧ (∃ left right,
         user_input = left +:+ v +:+ right
         ∧ contains_only_spaces left = true
         ∧ contains_only_spaces right = true)
    ∧ no_outer_space v
    ∧ messages st' = messages st
    ∧ industry st' = industry st
    ∧ contract_type st' = contract_type st
    ∧ budget_range st' = budget_range st
    ∧ split "location" user_input = Ok [user_input].
Proof.
  intros Hin Hloc Hcur Hfalse.
  assert (Habsent : PyStr.contains "location" user_input = false)
    by (by apply PyStrFacts.not_contains_lower).
  exists (with_location (PyStr (PyStr.strip user_input)) st), (PyStr.strip user_input).
  destruct (strip_cut user_input) as (left & right & Hcut & Hl & Hr & Hv).
  split; [|split; [done|split; [done|split; [by exists left, right|]]]].
  - unfold extract_location. rewrite Hcur. cbn [subscript mbind result_bind].
    rewrite Hfalse. cbn [existsb negb andb]. rewrite Hin. cbn [orb].
    by rewrite after_keyword_absent.
  - split; [exact Hv|]. do 4 (split; [reflexivity|]).
    unfold split. by rewrite PyStrFacts.split_go_absent.
Qed.

Lemma extract_location_whole_input_witness :
  ∃ st',
    extract_location "  I live in Austin  " initial_state = Ok st'
    ∧ location st' = Some (PyStr "I live in Austin")
    ∧ industry st' = Some PyNone.
Proof.
  destruct (extract_location_whole_input "  I live in Austin  " initial_state
              PyNone eq_refl eq_refl eq_refl eq_refl)
    as (st' & v & E & Hl & -> & _ & _ & _ & Hi & _).
  exists st'. split; [exact E|]. split; [exact Hl|exact Hi].
Defined.

(** X8: the location test also fires on the letters "in" inside other words:
    an input that names the industry keyword always passes it, so on a
    dictionary whose location is still [None] (or empty) the same pass that
    reads the industry also binds location, to the stripped text after
    "location" or, when that word is absent, to the whole stripped input. *)
Theorem industry_input_sets_location
    (user_input : string) (st : ContractState) (current : pyopt) :
  keys_bound st →
  location st = Some current →
  truthy current = false →
  PyStr.contains "industry" (PyStr.lower user_input) = true →
  ∃ st' v,
    extract_details user_input st = Ok st'
    ∧ after_keyword "location" user_input = Ok v
    ∧ location st' = Some (PyStr v).
Proof.
  intros Hkeys Hloc Hfalse Hind.
  destruct (extract_details_total user_input st Hkeys) as (st' & E & _).
  destruct (after_keyword_ok "location" user_input) as [v Hv]; [done|].
  exists st', v. split; [done|]. split; [done|].
  apply extract_details_steps in E as (st1 & st2 & st3 & H1 & H2 & H3 & H4).
  apply extract_industry_frame in H1 as (_ & _ & Hl1 & _).
  apply extract_contract_type_frame in H2 as (_ & _ & Hl2 & _).
  apply extract_budget_range_frame in H4 as (_ & _ & _ & Hl4).
  unfold extract_location in H3. rewrite Hl2, Hl1, Hloc in H3.
  cbn [subscript mbind result_bind] in H3. rewrite Hfalse in H3.
  cbn [existsb negb andb] in H3.
  rewrite (PyStrMore.contains_shorter "in" "dustry" _ Hind) in H3.
  cbn [orb] in H3. rewrite Hv in H3. injection H3 as <-. by rewrite Hl4.
Qed.

Lemma industry_input_sets_location_witness :
  ∃ st', extract_details "industry IT" initial_state = Ok st'
         ∧ location st' = Some (PyStr "industry IT").
Proof.
  destruct (industry_input_sets_location "industry IT" initial_state PyNone
              keys_bound_initial_state eq_refl eq_refl eq_refl)
    as (st' & v & E & [= <-] & Hl).
  by exists st'.
Defined.

(** X11: running the four checks a second time with the same input changes
    nothing, so it does not matter that the loop runs them once per streamed
    event rather than once per turn. *)
Theorem extract_details_idempotent (user_input : string) (st st' : ContractState) :
  extract_details user_input st = Ok st' →
  extract_details user_input st' = Ok st'.
Proof. apply extract_details_settles. Qed.

Lemma extract_details_idempotent_witness :
  extract_details "industry" state_after_industry = Ok state_after_industry.
Proof.
  apply (extract_details_idempotent "industry"
           (with_messages [HumanMessage "industry"] initial_state)).
  reflexivity.
Defined.

(** ** The graph *)

(** X9: once the gathering node has run, the routing decision is always
    "contract_search": the reply it has just appended is the last message, so
    the edge back to input_gathering is never taken; and whatever the routing
    decision returns is a key of the edge mapping, so following the edge never
    raises. *)
Theorem gathering_is_followed_by_search (channels : ContractState) :
  route_to_search (apply_update channels (gather_contract_details channels))
  = "contract_search"
  ∧ ∃ target, next_node input_gathering channels = Ok (Some target).
Proof.
  split.
  - rewrite gather_contract_details_cases, route_to_search_cases.
    set (reply := AIMessage _).
    change (default [] (messages (apply_update channels (messages_only [reply]))))
      with (default [] (messages channels) ++ [reply]).
    rewrite last_snoc. cbn [from_option is_HumanMessage reply].
    by rewrite andb_false_r.
  - unfold next_node. rewrite route_to_search_cases.
    destruct (_ && _); by eexists.
Qed.

(** ** Start-up *)

Lemma key_given_truthy environ name :
  truthy (getenv environ name) = true ↔ key_given environ name.
Proof.
  unfold key_given, getenv. destruct (environ !! name) as [[|c s]|]; cbn [truthy].
  - split; [done|]. by intros (? & ? & ?).
  - split; [by eexists _, _|done].
  - split; [done|]. by intros (? & ? & ?).
Qed.

(** X10: the import succeeds exactly when both API keys are bound to
    non-empty texts; a key bound to the empty text counts as missing; a missing
    Tavily key is reported first, a missing Groq key only when the Tavily key
    is there. *)
Theorem check_api_keys_spec (environ : gmap string string) :
  (key_given environ "TAVILY_API_KEY" ∧ key_given environ "GROQ_API_KEY"
   ↔ ∃ keys, check_api_keys environ = Ok keys)
  ∧ (¬ key_given environ "TAVILY_API_KEY" →
     check_api_keys environ
     = Raise (Exn "ValueError" "TAVILY_API_KEY is not set in the .env file"))
  ∧ (key_given environ "TAVILY_API_KEY" → ¬ key_given environ "GROQ_API_KEY" →
     check_api_keys environ
     = Raise (Exn "ValueError" "GROQ_API_KEY is not set in the .env file")).
Proof.
  unfold check_api_keys. rewrite <- !key_given_truthy.
  destruct (truthy (getenv environ "TAVILY_API_KEY")),
    (truthy (getenv environ "GROQ_API_KEY")); cbn [negb].
  - split; [split; [intros _; by eexists|done]|].
    split; [intros H; by destruct H|intros _ H; by destruct H].
  - split; [split; [by intros [_ [=]]|by intros [? [=]]]|].
    split; [intros H; by destruct H|done].
  - split; [split; [by intros [[=] _]|by intros [? [=]]]|].
    split; [done|by intros [=]].
  - split; [split; [by intros [[=] _]|by intros [? [=]]]|].
    split; [done|by intros [=]].
Qed.

Lemma check_api_keys_spec_witness :
  check_api_keys sample_environ
  = Raise (Exn "ValueError" "GROQ_API_KEY is not set in the .env file").
Proof.
  apply (check_api_keys_spec sample_environ).
  - by exists "t"%char, "vly-123".
  - intros (c & s & H). discriminate H.
Defined.
